(** * Multi-agent document analysis: job registry, orchestrator and job runner

  A shallow embedding of [backend/app/services/orchestrator.py],
  [backend/app/utils/document_parser.py] and the job handling of
  [backend/app/main.py], followed by the properties established for them.

  Conventions of the embedding:
  - a Python [dict] whose iteration order is observable (agent results,
    agent outcomes, payload records) is an association list with unique
    keys kept in insertion order; the global [jobs_store], which is only
    ever read by key, is a [gmap];
  - a Python [float] holding a time is an integer number of microseconds,
    so that [round(x, 3)] is rounding to a multiple of 1000;
  - a call that may raise returns a [pyresult];
  - wall-clock readings ([datetime.now], [time.perf_counter]) and the
    scheduling of concurrently running coroutines are inputs. *)

From Stdlib Require Import ZArith String Ascii List Lia Permutation.
From stdpp Require Import base tactics option list relations strings gmap.
Import ListNotations.

Set Warnings "-register-all".

Local Open Scope string_scope.
Local Open Scope Z_scope.

(** ** Python values, exceptions and ordered dictionaries *)

Module Py.

(** The values an agent can hand back as its payload. [PyFloat] carries
    its value in millionths. *)
Inductive pyval : Type :=
| PyNone
| PyBool (b : bool)
| PyInt (n : Z)
| PyFloat (x : Z)
| PyStr (s : string)
| PyList (items : list pyval)
| PyDict (entries : list (string * pyval))
| PyDataclass (cls : string) (fields : list (string * pyval)).

(** Exception classes the code distinguishes in its [except] clauses. The
    first five derive from [Exception]; the last four derive from
    [BaseException] only. *)
Inductive exc_class : Type :=
| TypeError
| UnsupportedDocumentError
| FileNotFoundError
| OSError
| OtherException
| CancelledError
| KeyboardInterrupt
| SystemExit
| OtherBaseException.

Record exception : Type := mkException {
  exc_type : exc_class;
  exc_str : string          (* str(exc) *)
}.

Inductive pyresult (A : Type) : Type :=
| Ok (a : A)
| Raise (exc : exception).
Arguments Ok {A} a.
Arguments Raise {A} exc.

(** [isinstance(exc, Exception)] *)
Definition is_Exception (e : exception) : bool :=
  match exc_type e with
  | CancelledError | KeyboardInterrupt | SystemExit | OtherBaseException => false
  | _ => true
  end.

(** [isinstance(exc, OSError)] *)
Definition is_OSError (e : exception) : bool :=
  match exc_type e with
  | FileNotFoundError | OSError => true
  | _ => false
  end.

(** [isinstance(exc, UnsupportedDocumentError)] *)
Definition is_UnsupportedDocumentError (e : exception) : bool :=
  match exc_type e with
  | UnsupportedDocumentError => true
  | _ => false
  end.

(** *** Ordered dictionaries with string keys *)

Definition dict (V : Type) : Type := list (string * V).

Fixpoint dict_get {V : Type} (k : string) (d : dict V) : option V :=
  match d with
  | [] => None
  | (k', v) :: rest => if String.eqb k' k then Some v else dict_get k rest
  end.

(** [d[k] = v]: an existing key keeps its position, a new key goes last. *)
Fixpoint dict_set {V : Type} (k : string) (v : V) (d : dict V) : dict V :=
  match d with
  | [] => [(k, v)]
  | (k', v') :: rest =>
      if String.eqb k' k then (k', v) :: rest
      else (k', v') :: dict_set k v rest
  end.

Definition keys {V : Type} (d : dict V) : list string := map fst d.
Definition values {V : Type} (d : dict V) : list V := map snd d.

(** [bool(v)] *)
Definition truthy (v : pyval) : bool :=
  match v with
  | PyNone => false
  | PyBool b => b
  | PyInt n => negb (n =? 0)
  | PyFloat x => negb (x =? 0)
  | PyStr s => negb (String.eqb s EmptyString)
  | PyList items => match items with [] => false | _ => true end
  | PyDict entries => match entries with [] => false | _ => true end
  | PyDataclass _ _ => true
  end.

(** [dataclasses.is_dataclass] on an instance. *)
Definition is_dataclass (v : pyval) : bool :=
  match v with
  | PyDataclass _ _ => true
  | _ => false
  end.

(** The recursion of [dataclasses.asdict]: dataclass instances become
    dicts of their fields, lists and dicts are converted element-wise,
    anything else is copied. *)
Fixpoint asdict (v : pyval) : pyval :=
  match v with
  | PyDataclass _ fields =>
      PyDict (map (fun kv => (fst kv, asdict (snd kv))) fields)
  | PyList items => PyList (map asdict items)
  | PyDict entries =>
      PyDict (map (fun kv => (fst kv, asdict (snd kv))) entries)
  | _ => v
  end.

(** [obj[key] = value] for a string key. Only a dict accepts it. *)
Definition setitem (obj : pyval) (key : string) (value : pyval) : pyresult pyval :=
  match obj with
  | PyDict entries => Ok (PyDict (dict_set key value entries))
  | PyList _ =>
      Raise (mkException TypeError "list indices must be integers or slices, not str")
  | PyNone =>
      Raise (mkException TypeError "'NoneType' object does not support item assignment")
  | PyBool _ =>
      Raise (mkException TypeError "'bool' object does not support item assignment")
  | PyInt _ =>
      Raise (mkException TypeError "'int' object does not support item assignment")
  | PyFloat _ =>
      Raise (mkException TypeError "'float' object does not support item assignment")
  | PyStr _ =>
      Raise (mkException TypeError "'str' object does not support item assignment")
  | PyDataclass cls _ =>
      Raise (mkException TypeError
               ("'" ++ cls ++ "' object does not support item assignment"))
  end.

(** [round(x, 3)] on a time in microseconds: the nearest multiple of a
    millisecond, ties to even. Python rounds the binary double behind the
    reading, which can fall on the other side only at an exact tie;
    [rounded_to_ms] below states the rounding without regard to ties. *)
Definition round3 (x : Z) : Z :=
  let q := x / 1000 in
  let r := x mod 1000 in
  1000 * (if r <? 500 then q
          else if 500 <? r then q + 1
          else if Z.even q then q else q + 1).

(** [max(xs, default=d)] *)
Definition max_default (d : Z) (xs : list Z) : Z :=
  match xs with
  | [] => d
  | x :: rest => fold_left Z.max rest x
  end.

(** [sum(xs)] *)
Definition zsum (xs : list Z) : Z := fold_left Z.add xs 0.

End Py.
Import Py.

(** ** The orchestrator ([services/orchestrator.py]) *)

Module Orchestrator.

Record AgentOutcome : Type := mkAgentOutcome {
  name : string;
  success : bool;
  payload : pyval;
  processing_time_seconds : Z;
  error : option string
}.

(** What awaiting [fn(document_text)] amounts to in a given run: the agent
    returns a payload or raises an exception, and [took] microseconds pass
    on the monotonic clock between the two [time.perf_counter()] readings. *)
Record invocation : Type := mkInvocation {
  awaited : pyresult pyval;
  took : N
}.

Definition AgentCallable : Type := string -> invocation.

(** [_timed]: the [except Exception] clause turns an exception into a
    failed outcome; anything else the agent raises goes on to the
    caller. *)
Definition _timed (name : string) (fn : AgentCallable) (document_text : string)
  : pyresult AgentOutcome :=
  let call := fn document_text in
  let attempt :=
    match awaited call with
    | Ok payload => Ok (payload, true, None)
    | Raise exc =>
        if is_Exception exc then Ok (PyNone, false, Some (exc_str exc))
        else Raise exc
    end in
  match attempt with
  | Raise exc => Raise exc
  | Ok (payload, success, error) =>
      let elapsed := Z.of_N (took call) in
      Ok (mkAgentOutcome name success payload (round3 elapsed) error)
  end.

Record AnalysisOrchestrator : Type := mkAnalysisOrchestrator {
  _summarizer : AgentCallable;
  _entity_extractor : AgentCallable;
  _sentiment_analyzer : AgentCallable
}.

Definition _run_summary (self : AnalysisOrchestrator) (document_text : string)
  : pyresult AgentOutcome :=
  _timed "summary" (_summarizer self) document_text.

Definition _run_entities (self : AnalysisOrchestrator) (document_text : string)
  : pyresult AgentOutcome :=
  _timed "entities" (_entity_extractor self) document_text.

Definition _run_sentiment (self : AnalysisOrchestrator) (document_text : string)
  : pyresult AgentOutcome :=
  _timed "sentiment" (_sentiment_analyzer self) document_text.

(** A value found in the mapping returned by the graph: an [AgentOutcome],
    or anything else, of which the code only uses [str(result)]. *)
Inductive graph_result : Type :=
| IsAgentOutcome (outcome : AgentOutcome)
| NotAgentOutcome (rendered : string).

(** What a step of the graph hands to the graph. *)
Definition as_graph_result (returned : pyresult AgentOutcome)
  : pyresult graph_result :=
  match returned with
  | Ok outcome => Ok (IsAgentOutcome outcome)
  | Raise exc => Raise exc
  end.

(** The steps given to [RunnableParallel], in keyword order. *)
Definition _graph (self : AnalysisOrchestrator)
  : list (string * (string -> pyresult graph_result)) :=
  [ ("summary", fun text => as_graph_result (_run_summary self text));
    ("entities", fun text => as_graph_result (_run_entities self text));
    ("sentiment", fun text => as_graph_result (_run_sentiment self text)) ].

(** The scheduler: while tasks are running, the next number picked says
    which of them finishes next; tasks left when the picks run out finish
    in the order they were started. *)
Fixpoint completion_order {A : Type} (running : list A) (picks : list nat)
  : list A :=
  match picks with
  | [] => running
  | k :: later =>
      let i := (k mod length running)%nat in
      match running !! i with
      | Some task => task :: completion_order (delete i running) later
      | None => running
      end
  end.

(** The exception of the first task, in the order of completion, that
    ended by raising. *)
Fixpoint first_raised {O : Type} (finished : dict (pyresult O)) : option exception :=
  match finished with
  | [] => None
  | (_, Raise exc) :: _ => Some exc
  | (_, Ok _) :: later => first_raised later
  end.

(** [RunnableParallel.ainvoke]: every step is started on the same input
    and each deposits its result when it finishes. The gathering raises
    what the first step to fail raised. When all have finished without
    raising, the output mapping is built by walking the steps in
    declaration order ([dict(zip(steps, results))]). *)
Definition ainvoke {I O : Type} (steps : list (string * (I -> pyresult O)))
  (picks : list nat) (input : I) : pyresult (dict O) :=
  let finished :=
    map (fun step => (fst step, snd step input)) (completion_order steps picks) in
  match first_raised finished with
  | Some exc => Raise exc
  | None =>
      Ok (omap (fun step =>
                  match dict_get (fst step) finished with
                  | Some (Ok result) => Some (fst step, result)
                  | _ => None
                  end)
               steps)
  end.

(** First loop of [run]: anything that is not an [AgentOutcome] is turned
    into a failed outcome. *)
Definition to_outcome (name : string) (result : graph_result) : AgentOutcome :=
  match result with
  | IsAgentOutcome outcome => outcome
  | NotAgentOutcome rendered => mkAgentOutcome name false PyNone 0 (Some rendered)
  end.

Definition collect_outcomes (raw_results : dict graph_result) : dict AgentOutcome :=
  fold_left
    (fun agent_outcomes item =>
       dict_set (fst item) (to_outcome (fst item) (snd item)) agent_outcomes)
    raw_results [].

(** [(asdict(p) if is_dataclass(p) else p) or {}] *)
Definition payload_or_empty (p : pyval) : pyval :=
  let converted := if is_dataclass p then asdict p else p in
  if truthy converted then converted else PyDict [].

Definition optional_str (s : option string) : pyval :=
  match s with
  | Some text => PyStr text
  | None => PyNone
  end.

(** Body of the second loop of [run] for one outcome. *)
Definition structured_entry (outcome : AgentOutcome) : pyresult pyval :=
  if success outcome then
    setitem (payload_or_empty (payload outcome)) "processing_time_seconds"
            (PyFloat (processing_time_seconds outcome))
  else
    Ok (PyDict [ ("error", optional_str (error outcome));
                 ("processing_time_seconds",
                  PyFloat (processing_time_seconds outcome)) ]).

Fixpoint merge (remaining : dict AgentOutcome) (structured : dict pyval)
  : pyresult (dict pyval) :=
  match remaining with
  | [] => Ok structured
  | (name, outcome) :: rest =>
      match structured_entry outcome with
      | Ok entry => merge rest (dict_set name entry structured)
      | Raise exc => Raise exc
      end
  end.

(** A payload that is a non-empty dict is the very object the timing field
    is written into, and the outcome still refers to it afterwards. *)
Definition after_merge (outcome : AgentOutcome) : AgentOutcome :=
  if success outcome then
    match payload outcome with
    | PyDict (first :: others) =>
        mkAgentOutcome (name outcome) (success outcome)
          (PyDict (dict_set "processing_time_seconds"
                     (PyFloat (processing_time_seconds outcome)) (first :: others)))
          (processing_time_seconds outcome) (error outcome)
    | _ => outcome
    end
  else outcome.

Definition run (self : AnalysisOrchestrator) (picks : list nat)
  (document_text : string) : pyresult (dict pyval * dict AgentOutcome) :=
  match ainvoke (_graph self) picks document_text with
  | Raise exc => Raise exc
  | Ok raw_results =>
      let agent_outcomes := collect_outcomes raw_results in
      match merge agent_outcomes [] with
      | Ok structured =>
          Ok (structured,
              map (fun item => (fst item, after_merge (snd item))) agent_outcomes)
      | Raise exc => Raise exc
      end
  end.

End Orchestrator.
Import Orchestrator.

(** ** Text extraction ([utils/document_parser.py]) *)

Module DocumentParser.

(** What the file system holds at a path: what [read_text] does on it and
    what [_extract_pdf_text] (pdfplumber) does on it. *)
Record stored_file : Type := mkStoredFile {
  read_text : pyresult string;
  _extract_pdf_text : pyresult string
}.

(** A path that does not exist is mapped to [None]. *)
Definition filesystem : Type := string -> option stored_file.

(** [str.rfind] for a single character. *)
Fixpoint rfind (c : ascii) (s : string) : option nat :=
  match s with
  | EmptyString => None
  | String c' rest =>
      match rfind c rest with
      | Some i => Some (S i)
      | None => if Ascii.eqb c' c then Some 0%nat else None
      end
  end.

(** [path.split("/")] *)
Fixpoint split_slash (path : string) : list string :=
  match path with
  | EmptyString => [EmptyString]
  | String c rest =>
      if Ascii.eqb c "/" then EmptyString :: split_slash rest
      else
        match split_slash rest with
        | first :: others => String c first :: others
        | [] => [String c EmptyString]
        end
  end.

(** The components pathlib keeps when it parses a path: those that are
    neither empty nor a single dot. *)
Definition kept_component (part : string) : bool :=
  negb (String.eqb part EmptyString) && negb (String.eqb part ".").

Definition path_parts (path : string) : list string :=
  List.filter kept_component (split_slash path).

(** [PurePosixPath(path).name]: the last component of the parsed path, or
    the empty string when there is none. *)
Definition path_name (path : string) : string :=
  List.last (path_parts path) EmptyString.

(** [PurePosixPath(path).suffix]: from the last dot of the name on, when
    that dot is neither its first nor its last character. *)
Definition path_suffix (path : string) : string :=
  let name := path_name path in
  match rfind "." name with
  | Some i =>
      if ((0 <? i) && (i <? String.length name - 1))%nat
      then substring i (String.length name - i) name
      else EmptyString
  | None => EmptyString
  end.

Definition lower_char (c : ascii) : ascii :=
  let n := nat_of_ascii c in
  if ((65 <=? n) && (n <=? 90))%nat then ascii_of_nat (n + 32) else c.

(** [str.lower] on ASCII text. *)
Fixpoint lower (s : string) : string :=
  match s with
  | EmptyString => EmptyString
  | String c rest => String (lower_char c) (lower rest)
  end.

Definition extract_text (fs : filesystem) (file_path : string) : pyresult string :=
  match fs file_path with
  | None =>
      Raise (mkException FileNotFoundError ("Document not found at " ++ file_path))
  | Some file =>
      let suffix := lower (path_suffix file_path) in
      if String.eqb suffix ".txt" then read_text file
      else if String.eqb suffix ".pdf" then _extract_pdf_text file
      else
        Raise (mkException UnsupportedDocumentError
                 ("Unsupported document extension '" ++ suffix
                  ++ "'. Only PDF and TXT are allowed."))
  end.

End DocumentParser.
Import DocumentParser.

(** ** The job registry and the job runner ([main.py]) *)

Module Main.

Inductive job_status : Type :=
| uploaded
| processing
| completed
| partial
| failed.

#[global] Instance job_status_eq_dec : EqDecision job_status.
Proof. solve_decision. Defined.

(** One entry of [jobs_store]. Time stamps are clock readings. *)
Record job : Type := mkJob {
  job_id : string;
  filename : string;
  filepath : string;
  status : job_status;
  results : dict pyval;
  analysis_started_at : option Z;
  analysis_finished_at : option Z;
  total_processing_time_seconds : option Z;
  agents_completed : Z;
  agents_failed : Z;
  warning : option string
}.

(** The module-level state: [jobs_store] and the background tasks that
    have been scheduled and have not run yet. *)
Record server : Type := mkServer {
  jobs_store : gmap string job;
  background_tasks : list string
}.

Definition initial_server : server := mkServer ∅ [].

(** What a request handler does: it returns a body, raises an
    [HTTPException], or dies on another exception, which the framework
    answers with 500. *)
Inductive http (A : Type) : Type :=
| Response200 (body : A)
| HTTPException (status_code : Z) (detail : string)
| InternalServerError (exc : exception).
Arguments Response200 {A} body.
Arguments HTTPException {A} status_code detail.
Arguments InternalServerError {A} exc.

(** Body of [UploadResponse] and of [AnalyzeResponse]. *)
Record response_body : Type := mkResponseBody {
  response_job_id : string;
  response_status : job_status;
  message : string
}.

Record UploadFile : Type := mkUploadFile {
  upload_filename : string;
  content_type : option string;
  contents_length : Z
}.

Definition MAX_FILE_SIZE_BYTES : Z := 10 * 1024 * 1024.

Definition UPLOAD_DIR : string := "uploads".

Definition endswith (s ending : string) : bool :=
  let n := String.length s in
  let m := String.length ending in
  (m <=? n)%nat && String.eqb (substring (n - m) m s) ending.

(** [_validate_file_type]: [true] when no exception is raised. *)
Definition _validate_file_type (file : UploadFile) : bool :=
  let allowed :=
    match content_type file with
    | Some t => String.eqb t "application/pdf" || String.eqb t "text/plain"
    | None => false
    end in
  let named := lower (upload_filename file) in
  negb (negb allowed && negb (endswith named ".pdf" || endswith named ".txt")).

Definition _guess_extension (content_type : option string) : string :=
  match content_type with
  | Some t => if String.eqb t "application/pdf" then ".pdf" else ".txt"
  | None => ".txt"
  end.

(** [upload_document]; [new_id] is the value of [uuid.uuid4().hex] and
    [write_bytes] says what writing the contents to a path does. *)
Definition upload_document (file : UploadFile) (new_id : string)
  (write_bytes : string -> pyresult unit) (s : server)
  : http response_body * server :=
  if negb (_validate_file_type file) then
    (HTTPException 400 "Only PDF and TXT files are supported.", s)
  else if MAX_FILE_SIZE_BYTES <? contents_length file then
    (HTTPException 400 "File exceeds 10MB limit.", s)
  else
    let suffix :=
      if String.eqb (path_suffix (upload_filename file)) EmptyString
      then _guess_extension (content_type file)
      else path_suffix (upload_filename file) in
    let stored_path := UPLOAD_DIR ++ "/" ++ new_id ++ suffix in
    match write_bytes stored_path with
    | Raise exc => (InternalServerError exc, s)
    | Ok _ =>
        let record :=
          mkJob new_id (upload_filename file) stored_path uploaded [] None None
                None 0 0 None in
        (Response200
           (mkResponseBody new_id uploaded
              "Document uploaded successfully. Use /analyze to start processing."),
         mkServer (<[new_id := record]> (jobs_store s)) (background_tasks s))
    end.

(** [analyze_document]; [now] is [datetime.now(timezone.utc)]. *)
Definition analyze_document (request_job_id : string) (now : Z) (s : server)
  : http response_body * server :=
  match jobs_store s !! request_job_id with
  | None => (HTTPException 404 "Unknown job_id.", s)
  | Some job =>
      if bool_decide (status job = processing) then
        (HTTPException 409 "Analysis already in progress.", s)
      else if bool_decide (status job = completed)
              || bool_decide (status job = partial) then
        (HTTPException 409 "Analysis already completed.", s)
      else
        let job' :=
          mkJob (job_id job) (filename job) (filepath job)
                processing [] (Some now) (analysis_finished_at job) None 0 0 None in
        (Response200
           (mkResponseBody request_job_id processing
              "Analysis started. Check /results/{job_id} for updates."),
         mkServer (<[request_job_id := job']> (jobs_store s))
                  (background_tasks s ++ [request_job_id])%list)
  end.

Definition error_slot (message : string) : pyval :=
  PyDict [ ("error", PyStr message); ("processing_time_seconds", PyFloat 0) ].

Definition _mark_job_failed (job_id : string) (message : string) (now : Z)
  (store : gmap string job) : gmap string job :=
  match store !! job_id with
  | None => store
  | Some job =>
      let job' :=
        mkJob (Main.job_id job) (filename job) (filepath job)
              failed
              [ ("summary", error_slot message);
                ("entities", error_slot message);
                ("sentiment", error_slot message) ]
              (analysis_started_at job) (Some now) (Some 0) 0 3 (Some message) in
      <[job_id := job']> store
  end.

(** What a run of the job runner did besides updating the store. *)
Inductive event : Type :=
| WarnedUnknownJob (job_id : string)
| CalledExtractText (file_path : string)
| CalledOrchestratorRun (document_text : string)
| Propagated (exc : exception).

(** [_process_job]. The runner is the only writer of a job that is being
    processed, so the record read at the start is the one updated at the
    end. [picks] schedules the agents of this run. *)
Definition _process_job (fs : filesystem) (orchestrator : AnalysisOrchestrator)
  (picks : list nat) (now : Z) (job_id : string) (store : gmap string job)
  : gmap string job * list event :=
  match store !! job_id with
  | None => (store, [WarnedUnknownJob job_id])
  | Some job =>
      match extract_text fs (filepath job) with
      | Raise exc =>
          if is_UnsupportedDocumentError exc || is_OSError exc then
            (_mark_job_failed job_id
               ("Document parsing failed: " ++ exc_str exc) now store,
             [CalledExtractText (filepath job)])
          else
            (store, [CalledExtractText (filepath job); Propagated exc])
      | Ok document_text =>
          match run orchestrator picks document_text with
          | Raise exc =>
              if is_Exception exc then
                (_mark_job_failed job_id
                   ("Analysis failed: " ++ exc_str exc) now store,
                 [CalledExtractText (filepath job);
                  CalledOrchestratorRun document_text])
              else
                (store,
                 [CalledExtractText (filepath job);
                  CalledOrchestratorRun document_text;
                  Propagated exc])
          | Ok (structured_results, agent_outcomes) =>
              let agents_completed :=
                Z.of_nat (length (filter (fun outcome => success outcome = true)
                                         (values agent_outcomes))) in
              let agents_failed :=
                Z.of_nat (length agent_outcomes) - agents_completed in
              let status := if agents_failed =? 0 then completed else partial in
              let warning :=
                if bool_decide (status = partial)
                then Some "Partial results available - one or more agents failed."
                else None in
              let total_processing_time :=
                max_default 0 (map processing_time_seconds (values agent_outcomes)) in
              let job' :=
                mkJob (Main.job_id job) (filename job) (filepath job)
                      status structured_results
                      (analysis_started_at job) (Some now)
                      (Some (round3 total_processing_time))
                      agents_completed agents_failed warning in
              (<[job_id := job']> store,
               [CalledExtractText (filepath job);
                CalledOrchestratorRun document_text])
          end
      end
  end.

(** One step of the server: a request is handled, or a scheduled
    background task runs ([_launch_analysis]). *)
Inductive step : server -> server -> Prop :=
| step_upload file new_id write_bytes s :
    step s (snd (upload_document file new_id write_bytes s))
| step_analyze request_job_id now s :
    step s (snd (analyze_document request_job_id now s))
| step_launch_analysis fs orchestrator picks now job_id earlier later s :
    background_tasks s = (earlier ++ job_id :: later)%list ->
    step s (mkServer
              (fst (_process_job fs orchestrator picks now job_id (jobs_store s)))
              (earlier ++ later)%list).

Definition reachable (s : server) : Prop := rtc step initial_server s.

(** A job record [j] stored in a reachable server state. *)
Definition reachable_job (j : job) : Prop :=
  exists s id, reachable s /\ jobs_store s !! id = Some j.

End Main.
Import Main.

(** ** Vocabulary of the properties *)

Module Vocabulary.

(** The agents of an orchestrator under the names its [_run_*] methods
    give them, in the order of the graph's keywords. *)
Definition configured_agents (self : AnalysisOrchestrator)
  : list (string * AgentCallable) :=
  [ ("summary", _summarizer self);
    ("entities", _entity_extractor self);
    ("sentiment", _sentiment_analyzer self) ].

Definition agent_names : list string := ["summary"; "entities"; "sentiment"].

(** The agent raises something that is not an [Exception]. *)
Definition escapes (call : invocation) : bool :=
  match awaited call with
  | Raise exc => negb (is_Exception exc)
  | Ok _ => false
  end.

(** No agent raises anything but an [Exception] on this text. *)
Definition none_escapes (self : AnalysisOrchestrator) (document_text : string)
  : Prop :=
  forall name fn, (name, fn) ∈ configured_agents self ->
    escapes (fn document_text) = false.

(** The outcome the timed wrapper builds when it returns. *)
Definition recorded_outcome (name : string) (fn : AgentCallable)
  (document_text : string) : AgentOutcome :=
  let call := fn document_text in
  let duration := round3 (Z.of_N (took call)) in
  match awaited call with
  | Ok payload => mkAgentOutcome name true payload duration None
  | Raise exc => mkAgentOutcome name false PyNone duration (Some (exc_str exc))
  end.

(** The outcome the timed wrapper records for every configured agent. *)
Definition timed_outcomes (self : AnalysisOrchestrator) (document_text : string)
  : dict AgentOutcome :=
  map (fun agent =>
         (fst agent, recorded_outcome (fst agent) (snd agent) document_text))
      (configured_agents self).

(** [d] is [x] rounded to a whole number of milliseconds, both given in
    microseconds. *)
Definition rounded_to_ms (d x : Z) : Prop :=
  (exists ms, d = 1000 * ms) /\ Z.abs (d - x) <= 500.

(** The fields of a payload seen as a record: the converted fields of a
    dataclass instance, the entries of a dict, none for an empty value. *)
Definition payload_fields (p : pyval) : dict pyval :=
  match p with
  | PyDataclass _ fields => map (fun kv => (fst kv, asdict (snd kv))) fields
  | PyDict entries => entries
  | _ => []
  end.

(** The payloads the merge step can write the timing field into. *)
Definition record_like (p : pyval) : bool :=
  match p with
  | PyDataclass _ _ | PyDict _ => true
  | _ => negb (truthy p)
  end.

Definition raises (call : invocation) : bool :=
  match awaited call with
  | Raise _ => true
  | Ok _ => false
  end.

(** The agents whose invocation raises on a given text. *)
Definition failing_agents (self : AnalysisOrchestrator) (document_text : string)
  : list string :=
  keys (filter (fun agent => raises (snd agent document_text) = true)
               (configured_agents self)).

Definition terminal (s : job_status) : bool :=
  match s with
  | completed | partial | failed => true
  | uploaded | processing => false
  end.

(** The shape every stored job record is shown to have: a warning goes
    with the statuses [partial] and [failed], and the results are empty
    until the job is finished and keyed by the three agents afterwards. *)
Definition well_formed (j : job) : Prop :=
  (warning j <> None <-> status j = partial \/ status j = failed) /\
  (terminal (status j) = false -> results j = []) /\
  (terminal (status j) = true -> keys (results j) = agent_names).

Definition all_well_formed (store : gmap string job) : Prop :=
  forall id j, store !! id = Some j -> well_formed j.

End Vocabulary.
Import Vocabulary.

(** ** Concrete inputs used by the examples *)

Module Examples.

Definition summary_result : pyval :=
  PyDataclass "SummaryResult"
    [ ("text", PyStr "Acme Corp reported record growth.");
      ("key_points", PyList [PyStr "Acme Corp reported record growth."]);
      ("confidence", PyFloat 950000) ].

Definition entities_result : pyval :=
  PyDataclass "EntitiesResult"
    [ ("people", PyList []);
      ("organizations",
       PyList [PyDataclass "Entity"
                 [ ("name", PyStr "Acme Corp"); ("mentions", PyInt 1);
                   ("context", PyNone); ("role", PyNone);
                   ("type", PyStr "organization") ]]);
      ("dates", PyList []);
      ("locations", PyList []) ].

Definition sentiment_result : pyval :=
  PyDataclass "SentimentResult"
    [ ("tone", PyStr "positive"); ("confidence", PyFloat 700000);
      ("formality", PyStr "formal"); ("key_phrases", PyList []) ].

(** An agent that returns [p] after [us] microseconds. *)
Definition returning (p : pyval) (us : N) : AgentCallable :=
  fun _ => mkInvocation (Ok p) us.

(** An agent that raises after [us] microseconds. *)
Definition raising (reason : string) (us : N) : AgentCallable :=
  fun _ => mkInvocation (Raise (mkException OtherException reason)) us.

Definition healthy_orchestrator : AnalysisOrchestrator :=
  mkAnalysisOrchestrator (returning summary_result 400400)
                         (returning entities_result 200100)
                         (returning sentiment_result 300200).

(** The entity extractor fails and the sentiment agent returns [None]. *)
Definition degraded_orchestrator : AnalysisOrchestrator :=
  mkAnalysisOrchestrator (returning summary_result 400400)
                         (raising "LLM unavailable" 200700)
                         (returning PyNone 300).

(** Only the summarizer takes measurable time. *)
Definition lopsided_orchestrator : AnalysisOrchestrator :=
  mkAnalysisOrchestrator (returning summary_result 400000)
                         (returning entities_result 100)
                         (returning sentiment_result 200).

(** The sentiment agent finishes first, then the summarizer. *)
Definition sentiment_first : list nat := [2%nat; 0%nat].

(** A disk on which every write succeeds. *)
Definition writable : string -> pyresult unit := fun _ => Ok tt.

Definition text_upload : UploadFile :=
  mkUploadFile "report.txt" (Some "text/plain") 33.

(** A word-processor file sent with a plain-text content type. *)
Definition docx_upload : UploadFile :=
  mkUploadFile "report.docx" (Some "text/plain") 2048.

Definition disk : filesystem :=
  fun path =>
    if String.eqb path "uploads/job1.txt" then
      Some (mkStoredFile (Ok "Acme Corp reported record growth.")
              (Raise (mkException OtherException "not a PDF")))
    else if String.eqb path "uploads/job2.docx" then
      Some (mkStoredFile
              (Raise (mkException OtherException "not decoded"))
              (Raise (mkException OtherException "not a PDF")))
    else None.

(** [job1] uploaded as text and submitted for analysis. *)
Definition server_job1_processing : server :=
  snd (analyze_document "job1" 1000
         (snd (upload_document text_upload "job1" writable initial_server))).

(** [job1] after its background task ran with one agent failing. *)
Definition server_job1_partial : server :=
  mkServer
    (fst (_process_job disk degraded_orchestrator sentiment_first 2000 "job1"
            (jobs_store server_job1_processing)))
    [].

(** [job2] uploaded from the word-processor file and submitted. *)
Definition server_job2_processing : server :=
  snd (analyze_document "job2" 1000
         (snd (upload_document docx_upload "job2" writable initial_server))).

(** [job2] after its background task ran: extraction failed. *)
Definition server_job2_failed : server :=
  mkServer
    (fst (_process_job disk healthy_orchestrator [] 2000 "job2"
            (jobs_store server_job2_processing)))
    [].

End Examples.
Import Examples.

(** ** The registry over time *)

Module Lifecycle.

(** A step of the server in which [uuid.uuid4()] hands out an identifier
    that is not in use. *)
Inductive fresh_step : server -> server -> Prop :=
| fresh_upload file new_id write_bytes s :
    jobs_store s !! new_id = None ->
    fresh_step s (snd (upload_document file new_id write_bytes s))
| fresh_analyze request_job_id now s :
    fresh_step s (snd (analyze_document request_job_id now s))
| fresh_launch_analysis fs orchestrator picks now job_id earlier later s :
    background_tasks s = (earlier ++ job_id :: later)%list ->
    fresh_step s (mkServer
                    (fst (_process_job fs orchestrator picks now job_id
                            (jobs_store s)))
                    (earlier ++ later)%list).

Definition fresh_reachable (s : server) : Prop := rtc fresh_step initial_server s.

(** No job is scheduled twice, and a scheduled job is being processed. *)
Definition tasks_in_order (s : server) : Prop :=
  NoDup (background_tasks s) /\
  forall id, id ∈ background_tasks s ->
    exists j, jobs_store s !! id = Some j /\ status j = processing.

(** The edges of the status graph. *)
Definition transition (before after : job_status) : bool :=
  match before, after with
  | uploaded, processing
  | failed, processing
  | processing, completed
  | processing, partial
  | processing, failed => true
  | _, _ => false
  end.

(** The timing field of a result slot. *)
Definition slot_time (entry : pyval) : option Z :=
  match entry with
  | PyDict entries =>
      match dict_get "processing_time_seconds" entries with
      | Some (PyFloat seconds) => Some seconds
      | _ => None
      end
  | _ => None
  end.

(** The total of a record is the largest time shown in its result slots. *)
Definition total_is_largest_slot_time (j : job) : Prop :=
  exists times,
    map slot_time (values (results j)) = map Some times /\
    Forall (fun t => 0 <= t) times /\
    total_processing_time_seconds j = Some (max_default 0 times).

(** How the bookkeeping fields of a record go with its status. *)
Definition coherent (j : job) : Prop :=
  match status j with
  | uploaded =>
      analysis_started_at j = None /\ analysis_finished_at j = None /\
      total_processing_time_seconds j = None /\
      agents_completed j = 0 /\ agents_failed j = 0
  | processing =>
      analysis_started_at j <> None /\
      total_processing_time_seconds j = None /\
      agents_completed j = 0 /\ agents_failed j = 0
  | completed =>
      analysis_started_at j <> None /\ analysis_finished_at j <> None /\
      agents_completed j = 3 /\ agents_failed j = 0 /\
      total_is_largest_slot_time j
  | partial =>
      analysis_started_at j <> None /\ analysis_finished_at j <> None /\
      1 <= agents_failed j <= 3 /\
      agents_completed j = 3 - agents_failed j /\
      total_is_largest_slot_time j
  | failed =>
      analysis_started_at j <> None /\ analysis_finished_at j <> None /\
      agents_completed j = 0 /\ agents_failed j = 3 /\
      total_processing_time_seconds j = Some 0 /\
      total_is_largest_slot_time j
  end.

(** What holds of every server state reached with fresh identifiers. *)
Definition orderly (s : server) : Prop :=
  tasks_in_order s /\
  forall id j, jobs_store s !! id = Some j -> job_id j = id /\ coherent j.

(** [path] contains no occurrence of the character [c]. *)
Definition free_of (c : ascii) (path : string) : Prop := rfind c path = None.

(** The extension [upload_document] gives the stored file: that of the
    client's file name, or a guess from the content type when the name
    has none. *)
Definition stored_suffix (file : UploadFile) : string :=
  if String.eqb (path_suffix (upload_filename file)) EmptyString
  then _guess_extension (content_type file)
  else path_suffix (upload_filename file).

(** The content type is one of the two [_validate_file_type] allows. *)
Definition content_type_allowed (file : UploadFile) : bool :=
  match content_type file with
  | Some t => String.eqb t "application/pdf" || String.eqb t "text/plain"
  | None => false
  end.

End Lifecycle.
Import Lifecycle.

(** ** Reading results ([fetch_results]) *)

Module Api.

(** The value of the [results] field of a response: [AnalysisResults]
    called without arguments, with its defaults, or called on the stored
    mapping expanded into keyword arguments. *)
Inductive AnalysisResults : Type :=
| Defaults
| FromMapping (results : dict pyval).

Record ResultsResponse : Type := mkResultsResponse {
  job_id : string;
  status : job_status;
  document_name : string;
  results : AnalysisResults;
  total_processing_time_seconds : option Z;
  agents_completed : Z;
  agents_failed : Z;
  warning : option string
}.

Definition fetch_results (job_id : string) (s : server) : http ResultsResponse :=
  match jobs_store s !! job_id with
  | None => HTTPException 404 "Unknown job_id."
  | Some job =>
      let results := Main.results job in
      Response200
        (mkResultsResponse job_id (Main.status job) (filename job)
           (match results with
            | [] => Defaults
            | _ :: _ => FromMapping results
            end)
           (Main.total_processing_time_seconds job)
           (Main.agents_completed job) (Main.agents_failed job)
           (Main.warning job))
  end.

End Api.

(** ** Further concrete inputs *)

Module MoreExamples.


(** The summarizer is cancelled while it runs. *)
Definition cancelled_orchestrator : AnalysisOrchestrator :=
  mkAnalysisOrchestrator
    (fun _ => mkInvocation (Raise (mkException CancelledError EmptyString)) 150000)
    (returning entities_result 200100)
    (returning sentiment_result 300200).

(** A disk that refuses every write, the file name being too long. *)
Definition name_too_long : string -> pyresult unit :=
  fun _ => Raise (mkException OSError "[Errno 36] File name too long").

Definition pdf_upload : UploadFile :=
  mkUploadFile "scan.pdf" (Some "application/pdf") 4096.

(** [job3] is a PDF that pdfplumber cannot open; the file of [job1] has
    been removed. *)
Definition damaged_disk : filesystem :=
  fun path =>
    if String.eqb path "uploads/job3.pdf" then
      Some (mkStoredFile
              (Ok "%PDF-1.4")
              (Raise (mkException OtherException "No /Root object! - Is this really a PDF?")))
    else None.

Definition server_job3_processing : server :=
  snd (analyze_document "job3" 1000
         (snd (upload_document pdf_upload "job3" writable initial_server))).

(** [job3] after its background task ran and died on the PDF. *)
Definition server_job3_stuck : server :=
  mkServer
    (fst (_process_job damaged_disk healthy_orchestrator [] 2000 "job3"
            (jobs_store server_job3_processing)))
    [].

(** [job1] after a run in which every agent succeeded. *)
Definition server_job1_completed : server :=
  mkServer
    (fst (_process_job disk healthy_orchestrator sentiment_first 2000 "job1"
            (jobs_store server_job1_processing)))
    [].

End MoreExamples.
Import MoreExamples.
(** * Properties *)

(** ** Ordered dictionaries *)

Section dict_facts.
Context {V : Type}.
Implicit Types (d : dict V) (k : string) (v : V).

Lemma dict_get_set_eq k v d : dict_get k (dict_set k v d) = Some v.
Proof.
  induction d as [|[k' v'] d IH]; simpl.
  - by rewrite String.eqb_refl.
  - destruct (String.eqb k' k) eqn:E; simpl; rewrite E; done.
Qed.

Lemma dict_get_set_ne k k' v d :
  k <> k' -> dict_get k' (dict_set k v d) = dict_get k' d.
Proof.
  intros Hne. induction d as [|[k0 v0] d IH]; simpl.
  - apply String.eqb_neq in Hne. by rewrite Hne.
  - destruct (String.eqb k0 k) eqn:E; simpl.
    + apply String.eqb_eq in E. subst k0.
      apply String.eqb_neq in Hne. by rewrite Hne.
    + by rewrite IH.
Qed.

Lemma dict_get_elem_of k v d :
  NoDup (keys d) -> (k, v) ∈ d -> dict_get k d = Some v.
Proof.
  induction d as [|[k0 v0] d IH]; simpl; intros Hnd Hin.
  - by apply elem_of_nil in Hin.
  - apply NoDup_cons in Hnd as [Hfresh Hnd].
    apply elem_of_cons in Hin as [Heq|Hin].
    + inversion Heq; subst. by rewrite String.eqb_refl.
    + destruct (String.eqb k0 k) eqn:E; [|by apply IH].
      apply String.eqb_eq in E. subst k0. exfalso. apply Hfresh.
      unfold keys. apply list_elem_of_fmap. by exists (k, v).
Qed.

End dict_facts.

(** ** Rounding and maxima *)

Lemma round3_multiple x : exists k, round3 x = 1000 * k.
Proof. unfold round3. eauto. Qed.

Lemma round3_idempotent x : round3 (round3 x) = round3 x.
Proof.
  destruct (round3_multiple x) as [k ->]. unfold round3.
  replace (1000 * k) with (k * 1000) by lia.
  rewrite Z.div_mul by lia. rewrite Z.mod_mul by lia. simpl. lia.
Qed.

Lemma round3_nonneg x : 0 <= x -> 0 <= round3 x.
Proof.
  intros Hx. unfold round3.
  assert (0 <= x / 1000) by (apply Z.div_pos; lia).
  repeat case_match; lia.
Qed.

Lemma fold_left_max_le xs a : a <= fold_left Z.max xs a.
Proof.
  revert a. induction xs as [|x xs IH]; intros a; simpl; [lia|].
  specialize (IH (Z.max a x)). lia.
Qed.

Lemma fold_left_max_upper xs a y : y ∈ xs -> y <= fold_left Z.max xs a.
Proof.
  revert a. induction xs as [|x xs IH]; intros a Hin; simpl.
  - by apply elem_of_nil in Hin.
  - apply elem_of_cons in Hin as [->|Hin]; [|by apply IH].
    pose proof (fold_left_max_le xs (Z.max a x)). lia.
Qed.

Lemma fold_left_max_elem xs a :
  fold_left Z.max xs a = a \/ fold_left Z.max xs a ∈ xs.
Proof.
  revert a. induction xs as [|x xs IH]; intros a; simpl; [by left|].
  destruct (IH (Z.max a x)) as [H|H].
  - rewrite H. destruct (Z.max_spec a x) as [[_ ->]|[_ ->]].
    + right. apply list_elem_of_here.
    + by left.
  - right. by apply list_elem_of_further.
Qed.

Lemma max_default_upper d xs y : y ∈ xs -> y <= max_default d xs.
Proof.
  destruct xs as [|x xs]; simpl; intros Hin.
  - by apply elem_of_nil in Hin.
  - apply elem_of_cons in Hin as [->|Hin].
    + apply fold_left_max_le.
    + by apply fold_left_max_upper.
Qed.

Lemma max_default_elem d xs : xs <> [] -> max_default d xs ∈ xs.
Proof.
  destruct xs as [|x xs]; [done|]. intros _. simpl.
  destruct (fold_left_max_elem xs x) as [->|H].
  - apply list_elem_of_here.
  - by apply list_elem_of_further.
Qed.

(** ** The scheduler and the parallel graph *)

Lemma completion_order_Permutation {A : Type} (running : list A) picks :
  completion_order running picks ≡ₚ running.
Proof.
  revert running. induction picks as [|k picks IH]; intros running; simpl; [done|].
  destruct (running !! (k mod length running)%nat) as [task|] eqn:E; [|done].
  rewrite IH. symmetry. by apply delete_Permutation.
Qed.

Lemma first_raised_None {O : Type} (finished : dict (pyresult O)) :
  first_raised finished = None ->
  forall key result, (key, result) ∈ finished -> exists value, result = Ok value.
Proof.
  induction finished as [|[k [v|exc]] finished IH]; simpl; intros Hnone key result Hin.
  - by apply elem_of_nil in Hin.
  - apply elem_of_cons in Hin as [[= -> ->]|Hin]; [by exists v|by eapply IH].
  - done.
Qed.

Lemma first_raised_Some {O : Type} (finished : dict (pyresult O)) exc :
  first_raised finished = Some exc -> exists key, (key, Raise exc) ∈ finished.
Proof.
  induction finished as [|[k [v|exc']] finished IH]; simpl; intros Hsome.
  - done.
  - destruct (IH Hsome) as [key Hin]. exists key. by apply list_elem_of_further.
  - injection Hsome as ->. exists k. apply list_elem_of_here.
Qed.

Lemma first_raised_all_Ok {O : Type} (finished : dict (pyresult O)) :
  (forall key result, (key, result) ∈ finished -> exists value, result = Ok value) ->
  first_raised finished = None.
Proof.
  intros Hall. destruct (first_raised finished) as [exc|] eqn:Hfirst; [|done].
  apply first_raised_Some in Hfirst as [key Hin].
  by destruct (Hall _ _ Hin).
Qed.

(** When no step raises, the output follows the declaration order of the
    steps, whatever the order of completion. *)
Lemma ainvoke_in_declaration_order {I O : Type}
    (steps : list (string * (I -> pyresult O))) picks input
    (value : string * (I -> pyresult O) -> O) :
  NoDup (keys steps) ->
  (forall step, step ∈ steps -> snd step input = Ok (value step)) ->
  ainvoke steps picks input = Ok (map (fun step => (fst step, value step)) steps).
Proof.
  intros Hnd Hvalues. unfold ainvoke.
  set (finished := map _ (completion_order steps picks)).
  assert (Hperm : finished ≡ₚ map (fun step => (fst step, snd step input)) steps).
  { unfold finished. apply (fmap_Permutation _), completion_order_Permutation. }
  assert (Hkeys : NoDup (keys finished)).
  { unfold keys. rewrite Hperm. unfold keys in Hnd.
    by rewrite <- list_fmap_compose. }
  assert (Hall : forall step, step ∈ steps ->
            dict_get (fst step) finished = Some (Ok (value step))).
  { intros step Hin. apply dict_get_elem_of; [done|]. rewrite Hperm.
    apply list_elem_of_fmap. exists step. split; [|done].
    by rewrite (Hvalues step Hin). }
  rewrite first_raised_all_Ok.
  2: { intros key result Hin. rewrite Hperm in Hin.
       apply list_elem_of_fmap in Hin as (step & [= -> ->] & Hstep).
       rewrite (Hvalues step Hstep). by eexists. }
  f_equal. clearbody finished. clear Hperm Hkeys Hnd Hvalues.
  induction steps as [|step steps IH]; simpl; [done|].
  rewrite Hall by apply list_elem_of_here. simpl. f_equal.
  apply IH. intros ? ?. apply Hall. by apply list_elem_of_further.
Qed.

(** What the gathering raises was raised by one of the steps. *)
Lemma ainvoke_Raise {I O : Type}
    (steps : list (string * (I -> pyresult O))) picks input exc :
  ainvoke steps picks input = Raise exc ->
  exists step, step ∈ steps /\ snd step input = Raise exc.
Proof.
  unfold ainvoke.
  set (finished := map _ (completion_order steps picks)).
  destruct (first_raised finished) as [exc'|] eqn:Hfirst; [|done].
  intros [= ->]. apply first_raised_Some in Hfirst as [key Hin].
  unfold finished in Hin. apply list_elem_of_fmap in Hin as (step & Heq & Hstep).
  injection Heq as _ Hraise. exists step. split; [|done].
  by rewrite <- (completion_order_Permutation steps picks).
Qed.

(** When the gathering returns, no step raised. *)
Lemma ainvoke_Ok_inv {I O : Type}
    (steps : list (string * (I -> pyresult O))) picks input output :
  ainvoke steps picks input = Ok output ->
  forall step, step ∈ steps -> exists value, snd step input = Ok value.
Proof.
  unfold ainvoke.
  set (finished := map _ (completion_order steps picks)).
  destruct (first_raised finished) as [exc'|] eqn:Hfirst; [done|].
  intros _ step Hstep.
  apply (first_raised_None finished Hfirst (fst step)).
  unfold finished. apply list_elem_of_fmap. exists step. split; [done|].
  by rewrite (completion_order_Permutation steps picks).
Qed.

(** ** The orchestrator *)

Lemma graph_keys_NoDup self : NoDup (keys (_graph self)).
Proof.
  unfold keys; simpl.
  repeat (apply NoDup_cons_2;
          [rewrite ?elem_of_cons, elem_of_nil; intuition discriminate|]).
  apply NoDup_nil_2.
Qed.

Lemma timed_Ok name fn text :
  escapes (fn text) = false ->
  _timed name fn text = Ok (recorded_outcome name fn text).
Proof.
  unfold escapes, _timed, recorded_outcome.
  destruct (awaited (fn text)) as [p|exc]; simpl; [done|].
  by destruct (is_Exception exc).
Qed.

Lemma timed_Raise name fn text exc :
  _timed name fn text = Raise exc ->
  awaited (fn text) = Raise exc /\ is_Exception exc = false.
Proof.
  unfold _timed. destruct (awaited (fn text)) as [p|exc']; simpl; [done|].
  destruct (is_Exception exc') eqn:E; simpl; [done|]. by intros [= <-].
Qed.

Lemma timed_Ok_inv name fn text outcome :
  _timed name fn text = Ok outcome ->
  escapes (fn text) = false /\ outcome = recorded_outcome name fn text.
Proof.
  unfold escapes, _timed, recorded_outcome.
  destruct (awaited (fn text)) as [p|exc]; simpl; [by intros [= <-]|].
  destruct (is_Exception exc); simpl; [by intros [= <-]|done].
Qed.

Lemma none_escapes_each self text :
  none_escapes self text ->
  escapes (_summarizer self text) = false /\
  escapes (_entity_extractor self text) = false /\
  escapes (_sentiment_analyzer self text) = false.
Proof.
  intros Hnone. split_and!.
  - apply (Hnone "summary"). apply list_elem_of_here.
  - apply (Hnone "entities"). apply list_elem_of_further, list_elem_of_here.
  - apply (Hnone "sentiment").
    apply list_elem_of_further, list_elem_of_further, list_elem_of_here.
Qed.

Lemma graph_results self picks text :
  none_escapes self text ->
  ainvoke (_graph self) picks text =
  Ok [ ("summary",
        IsAgentOutcome (recorded_outcome "summary" (_summarizer self) text));
       ("entities",
        IsAgentOutcome (recorded_outcome "entities" (_entity_extractor self) text));
       ("sentiment",
        IsAgentOutcome (recorded_outcome "sentiment" (_sentiment_analyzer self) text)) ].
Proof.
  intros Hnone. apply none_escapes_each in Hnone as (H1 & H2 & H3).
  rewrite (ainvoke_in_declaration_order (_graph self) picks text
             (fun step =>
                match snd step text with
                | Ok result => result
                | Raise _ => NotAgentOutcome EmptyString
                end)).
  - simpl. unfold _run_summary, _run_entities, _run_sentiment.
    by rewrite !timed_Ok.
  - apply graph_keys_NoDup.
  - intros step. unfold _graph. rewrite !elem_of_cons, elem_of_nil.
    unfold _run_summary, _run_entities, _run_sentiment.
    intros [->|[->|[->|[]]]]; simpl; by rewrite timed_Ok.
Qed.

Lemma graph_Raise self picks text exc :
  ainvoke (_graph self) picks text = Raise exc ->
  is_Exception exc = false /\
  exists name fn,
    (name, fn) ∈ configured_agents self /\ awaited (fn text) = Raise exc.
Proof.
  intros Hraise. apply ainvoke_Raise in Hraise as (step & Hstep & Hraise).
  revert Hstep Hraise. unfold _graph. rewrite !elem_of_cons, elem_of_nil.
  unfold _run_summary, _run_entities, _run_sentiment, as_graph_result.
  intros [->|[->|[->|[]]]]; simpl.
  - destruct (_timed "summary" _ _) eqn:Htimed; [done|]. intros [= ->].
    apply timed_Raise in Htimed as [? ?]. split; [done|].
    exists "summary", (_summarizer self). split; [apply list_elem_of_here|done].
  - destruct (_timed "entities" _ _) eqn:Htimed; [done|]. intros [= ->].
    apply timed_Raise in Htimed as [? ?]. split; [done|].
    exists "entities", (_entity_extractor self).
    split; [apply list_elem_of_further, list_elem_of_here|done].
  - destruct (_timed "sentiment" _ _) eqn:Htimed; [done|]. intros [= ->].
    apply timed_Raise in Htimed as [? ?]. split; [done|].
    exists "sentiment", (_sentiment_analyzer self). split; [|done].
    apply list_elem_of_further, list_elem_of_further, list_elem_of_here.
Qed.

Lemma graph_Ok_inv self picks text raw_results :
  ainvoke (_graph self) picks text = Ok raw_results -> none_escapes self text.
Proof.
  intros Hok name fn Hin.
  pose proof (ainvoke_Ok_inv _ _ _ _ Hok) as Hsteps.
  assert (Hstep : exists value,
            as_graph_result (_timed name fn text) = Ok value).
  { unfold configured_agents in Hin. revert Hin.
    rewrite !elem_of_cons, elem_of_nil.
    intros [[= -> ->]|[[= -> ->]|[[= -> ->]|[]]]].
    - apply (Hsteps ("summary", fun text => as_graph_result (_run_summary self text))).
      apply list_elem_of_here.
    - apply (Hsteps ("entities", fun text => as_graph_result (_run_entities self text))).
      apply list_elem_of_further, list_elem_of_here.
    - apply (Hsteps ("sentiment", fun text => as_graph_result (_run_sentiment self text))).
      apply list_elem_of_further, list_elem_of_further, list_elem_of_here. }
  destruct Hstep as [value Hvalue]. unfold as_graph_result in Hvalue.
  destruct (_timed name fn text) as [outcome|] eqn:Htimed; [|done].
  by apply timed_Ok_inv in Htimed as [? _].
Qed.

(** A run in which no agent raises outside [Exception] is the merge of
    the recorded outcomes. *)
Lemma run_unfold self picks text :
  none_escapes self text ->
  run self picks text
  = match merge (timed_outcomes self text) [] with
    | Ok structured =>
        Ok (structured,
            map (fun item => (fst item, after_merge (snd item)))
                (timed_outcomes self text))
    | Raise exc => Raise exc
    end.
Proof. intros Hnone. unfold run. by rewrite graph_results. Qed.

Lemma run_Ok_none_escapes self picks text result :
  run self picks text = Ok result -> none_escapes self text.
Proof.
  unfold run. destruct (ainvoke (_graph self) picks text) as [raw|] eqn:Hgraph;
    [|done].
  intros _. by eapply graph_Ok_inv.
Qed.

Lemma run_schedule_irrelevant self picks picks' text result :
  run self picks text = Ok result -> run self picks' text = Ok result.
Proof.
  intros Hrun. pose proof (run_Ok_none_escapes _ _ _ _ Hrun) as Hnone.
  rewrite run_unfold in Hrun by done. by rewrite run_unfold.
Qed.

Lemma run_Ok_inv self picks text structured outcomes :
  run self picks text = Ok (structured, outcomes) ->
  exists e1 e2 e3,
    structured_entry (recorded_outcome "summary" (_summarizer self) text) = Ok e1 /\
    structured_entry (recorded_outcome "entities" (_entity_extractor self) text)
    = Ok e2 /\
    structured_entry (recorded_outcome "sentiment" (_sentiment_analyzer self) text)
    = Ok e3 /\
    structured = [("summary", e1); ("entities", e2); ("sentiment", e3)] /\
    outcomes
    = [ ("summary",
         after_merge (recorded_outcome "summary" (_summarizer self) text));
        ("entities",
         after_merge (recorded_outcome "entities" (_entity_extractor self) text));
        ("sentiment",
         after_merge (recorded_outcome "sentiment" (_sentiment_analyzer self) text)) ].
Proof.
  intros Hrun. pose proof (run_Ok_none_escapes _ _ _ _ Hrun) as Hnone.
  rewrite run_unfold in Hrun by done. revert Hrun.
  unfold timed_outcomes, configured_agents. simpl.
  destruct (structured_entry (recorded_outcome "summary" _ _)) as [e1|]; [|done].
  destruct (structured_entry (recorded_outcome "entities" _ _)) as [e2|]; [|done].
  destruct (structured_entry (recorded_outcome "sentiment" _ _)) as [e3|]; [|done].
  simpl. intros [= <- <-]. by exists e1, e2, e3.
Qed.

Lemma setitem_payload_or_empty p key value entry :
  setitem (payload_or_empty p) key value = Ok entry ->
  record_like p = true /\ entry = PyDict (dict_set key value (payload_fields p)).
Proof.
  unfold payload_or_empty.
  destruct p as [|b|n|x|s|items|entries|cls fields]; simpl.
  - by intros [= <-].
  - destruct b; simpl; [done|]. by intros [= <-].
  - destruct (n =? 0); simpl; [|done]. by intros [= <-].
  - destruct (x =? 0); simpl; [|done]. by intros [= <-].
  - destruct (String.eqb s EmptyString); simpl; [|done]. by intros [= <-].
  - destruct items; simpl; [|done]. by intros [= <-].
  - destruct entries; simpl; by intros [= <-].
  - destruct fields; simpl; by intros [= <-].
Qed.

Lemma setitem_record_like p key value :
  record_like p = true ->
  setitem (payload_or_empty p) key value
  = Ok (PyDict (dict_set key value (payload_fields p))).
Proof.
  unfold payload_or_empty.
  destruct p as [|b|n|x|s|items|entries|cls fields]; simpl; try done.
  - by destruct b.
  - by destruct (n =? 0).
  - by destruct (x =? 0).
  - by destruct (String.eqb s EmptyString).
  - by destruct items.
  - by destruct entries.
  - by destruct fields.
Qed.

Lemma after_merge_success o : success (after_merge o) = success o.
Proof. unfold after_merge. by repeat case_match. Qed.

Lemma after_merge_time o :
  processing_time_seconds (after_merge o) = processing_time_seconds o.
Proof. unfold after_merge. by repeat case_match. Qed.

Lemma timed_time_nonneg name fn text :
  0 <= processing_time_seconds (recorded_outcome name fn text).
Proof.
  unfold recorded_outcome. destruct (awaited (fn text)); simpl; apply round3_nonneg; lia.
Qed.

Lemma timed_time_rounded name fn text :
  round3 (processing_time_seconds (recorded_outcome name fn text))
  = processing_time_seconds (recorded_outcome name fn text).
Proof.
  unfold recorded_outcome. destruct (awaited (fn text)); simpl; apply round3_idempotent.
Qed.

Lemma timed_success name fn text :
  success (recorded_outcome name fn text)
  = match awaited (fn text) with Ok _ => true | Raise _ => false end.
Proof. unfold recorded_outcome. by destruct (awaited (fn text)). Qed.

(** ** The timed execution wrapper *)

Lemma round3_rounds x : rounded_to_ms (round3 x) x.
Proof.
  split; [apply round3_multiple|]. unfold round3.
  pose proof (Z.div_mod x 1000 ltac:(lia)) as Hx.
  pose proof (Z.mod_pos_bound x 1000 ltac:(lia)) as Hr.
  repeat case_match; lia.
Qed.

(** C5, counterexample. The summarizer is cancelled while it is awaited.
    What it raises is no [Exception], the [except Exception] clause of
    the wrapper does not catch it, and the caller of the wrapper gets it. *)
Lemma cancellation_propagates :
  is_Exception (mkException CancelledError EmptyString) = false /\
  awaited (_summarizer cancelled_orchestrator "doc")
  = Raise (mkException CancelledError EmptyString) /\
  _timed "summary" (_summarizer cancelled_orchestrator) "doc"
  = Raise (mkException CancelledError EmptyString).
Proof. by split_and!. Qed.

(** C5, as the code has it. When the awaited agent raises an exception
    that is an instance of [Exception], the timed wrapper does not pass it
    on: it returns an outcome with [success] false, no payload, [error]
    set to the text of the exception and the measured duration. When the
    agent returns, the wrapper returns an outcome with [success] true, the
    payload, no error and the measured duration. The measured duration is
    the elapsed time rounded to a whole number of milliseconds. What the
    agent raises outside [Exception] (a cancellation, a keyboard
    interrupt, a system exit) is not caught and reaches the caller of the
    wrapper. *)
Theorem timed_isolates_exceptions (name : string) (fn : AgentCallable)
    (text : string) :
  let call := fn text in
  let elapsed := Z.of_N (took call) in
  (forall exc, awaited call = Raise exc -> is_Exception exc = true ->
     exists duration,
       _timed name fn text
       = Ok (mkAgentOutcome name false PyNone duration (Some (exc_str exc))) /\
       rounded_to_ms duration elapsed) /\
  (forall p, awaited call = Ok p ->
     exists duration,
       _timed name fn text = Ok (mkAgentOutcome name true p duration None) /\
       rounded_to_ms duration elapsed) /\
  (forall exc, awaited call = Raise exc -> is_Exception exc = false ->
     _timed name fn text = Raise exc).
Proof.
  simpl. unfold _timed. split_and!.
  - intros exc -> ->. eexists. split; [reflexivity|]. apply round3_rounds.
  - intros p ->. eexists. split; [reflexivity|]. apply round3_rounds.
  - by intros exc -> ->.
Qed.

Lemma timed_isolates_exceptions_witness :
  (exists duration,
     _timed "entities" (raising "LLM unavailable" 200700) "doc"
     = Ok (mkAgentOutcome "entities" false PyNone duration (Some "LLM unavailable"))
     /\ rounded_to_ms duration 200700) /\
  _timed "summary" (_summarizer cancelled_orchestrator) "doc"
  = Raise (mkException CancelledError EmptyString).
Proof.
  destruct (timed_isolates_exceptions "entities"
              (raising "LLM unavailable" 200700) "doc") as (Hcaught & _ & _).
  destruct (timed_isolates_exceptions "summary"
              (_summarizer cancelled_orchestrator) "doc") as (_ & _ & Hescapes).
  split.
  - exact (Hcaught _ eq_refl eq_refl).
  - exact (Hescapes _ eq_refl eq_refl).
Defined.

(** ** Merging *)

Lemma configured_agents_cases self name fn :
  (name, fn) ∈ configured_agents self ->
  (name = "summary" /\ fn = _summarizer self) \/
  (name = "entities" /\ fn = _entity_extractor self) \/
  (name = "sentiment" /\ fn = _sentiment_analyzer self).
Proof.
  unfold configured_agents. rewrite !elem_of_cons, elem_of_nil.
  intros [[= -> ->]|[[= -> ->]|[[= -> ->]|[]]]]; auto.
Qed.

(** What the merge step stores for one timed outcome. *)
Lemma structured_entry_timed name fn text entry :
  structured_entry (recorded_outcome name fn text) = Ok entry ->
  let duration := processing_time_seconds (recorded_outcome name fn text) in
  match awaited (fn text) with
  | Ok p =>
      record_like p = true /\
      entry = PyDict (dict_set "processing_time_seconds" (PyFloat duration)
                        (payload_fields p))
  | Raise exc =>
      entry = PyDict [ ("error", PyStr (exc_str exc));
                       ("processing_time_seconds", PyFloat duration) ]
  end.
Proof.
  unfold structured_entry, recorded_outcome.
  destruct (awaited (fn text)) as [p|exc]; simpl.
  - apply setitem_payload_or_empty.
  - by intros [= <-].
Qed.

(** C6. In the mapping returned by a run, every agent name is sent to one
    of two shapes. If the agent succeeded, the entry is the record of the
    payload's fields with the field [processing_time_seconds] set to the
    recorded duration: that field holds the duration and every other field
    is as in the payload. If the agent failed, the entry is exactly the
    record of [error] and [processing_time_seconds]. *)
Theorem run_merged_results_shape (self : AnalysisOrchestrator) (picks : list nat)
    (text : string) (structured : dict pyval) (outcomes : dict AgentOutcome) :
  run self picks text = Ok (structured, outcomes) ->
  forall name fn, (name, fn) ∈ configured_agents self ->
  exists outcome,
    dict_get name outcomes = Some outcome /\
    match awaited (fn text) with
    | Ok p =>
        success outcome = true /\
        exists entries,
          dict_get name structured = Some (PyDict entries) /\
          entries = dict_set "processing_time_seconds"
                      (PyFloat (processing_time_seconds outcome))
                      (payload_fields p) /\
          dict_get "processing_time_seconds" entries
          = Some (PyFloat (processing_time_seconds outcome)) /\
          (forall field, field <> "processing_time_seconds" ->
             dict_get field entries = dict_get field (payload_fields p))
    | Raise exc =>
        success outcome = false /\
        dict_get name structured
        = Some (PyDict [ ("error", PyStr (exc_str exc));
                         ("processing_time_seconds",
                          PyFloat (processing_time_seconds outcome)) ])
    end.
Proof.
  intros Hrun name fn Hin.
  apply run_Ok_inv in Hrun as (e1 & e2 & e3 & H1 & H2 & H3 & -> & ->).
  apply configured_agents_cases in Hin as [[-> ->]|[[-> ->]|[-> ->]]].
  all: eexists; split; [reflexivity|].
  all: rewrite after_merge_success, after_merge_time, timed_success.
  1: apply structured_entry_timed in H1; simpl in H1.
  2: apply structured_entry_timed in H2; simpl in H2.
  3: apply structured_entry_timed in H3; simpl in H3.
  all: match goal with
       | |- context [awaited ?call] => destruct (awaited call) as [p|exc]
       end.
  all: match goal with
       | H : _ /\ _ |- _ =>
           destruct H as [_ ->]; split; [done|]; eexists;
           split; [reflexivity|]; split; [reflexivity|]; split;
           [apply dict_get_set_eq
           |intros field Hfield; apply dict_get_set_ne; congruence]
       | H : _ = PyDict _ |- _ => rewrite H; by split
       end.
Qed.

Lemma run_merged_results_shape_witness :
  exists structured outcomes,
    run degraded_orchestrator sentiment_first "doc" = Ok (structured, outcomes) /\
    dict_get "entities" structured
    = Some (PyDict [ ("error", PyStr "LLM unavailable");
                     ("processing_time_seconds", PyFloat 201000) ]) /\
    dict_get "summary" structured
    = Some (PyDict (dict_set "processing_time_seconds" (PyFloat 400000)
                      (payload_fields summary_result))).
Proof.
  destruct (run degraded_orchestrator sentiment_first "doc")
    as [[structured outcomes]|] eqn:Hrun; [|discriminate Hrun].
  exists structured, outcomes. split; [reflexivity|].
  pose proof (run_merged_results_shape _ _ _ _ _ Hrun) as Hshape.
  vm_compute in Hrun. injection Hrun as <- <-.
  split.
  - destruct (Hshape "entities" (raising "LLM unavailable" 200700))
      as (outcome & Hget & Hcase).
    { unfold configured_agents; simpl. apply list_elem_of_further, list_elem_of_here. }
    simpl in Hget. injection Hget as <-. exact (proj2 Hcase).
  - reflexivity.
Defined.

(** C10. Every entry of the mapping returned by a run is a record that
    has the field [processing_time_seconds]. In particular, when a
    successful agent returned a falsy payload ([None], an empty dict, ...),
    its entry is the record holding just that field with the recorded
    duration. *)
Theorem run_entries_carry_timing (self : AnalysisOrchestrator) (picks : list nat)
    (text : string) (structured : dict pyval) (outcomes : dict AgentOutcome) :
  run self picks text = Ok (structured, outcomes) ->
  (forall name entry, (name, entry) ∈ structured ->
     exists entries seconds,
       entry = PyDict entries /\
       dict_get "processing_time_seconds" entries = Some (PyFloat seconds)) /\
  (forall name fn p,
     (name, fn) ∈ configured_agents self ->
     awaited (fn text) = Ok p ->
     truthy p = false ->
     dict_get name structured
     = Some (PyDict [ ("processing_time_seconds",
                       PyFloat (round3 (Z.of_N (took (fn text))))) ])).
Proof.
  intros Hrun.
  apply run_Ok_inv in Hrun as (e1 & e2 & e3 & H1 & H2 & H3 & -> & _).
  apply structured_entry_timed in H1, H2, H3. simpl in H1, H2, H3.
  split.
  - intros name entry. rewrite !elem_of_cons, elem_of_nil.
    intros [[= -> ->]|[[= -> ->]|[[= -> ->]|[]]]].
    all: match goal with
         | H : match awaited ?call with _ => _ end |- exists _ _, ?e = _ /\ _ =>
             destruct (awaited call); [destruct H as [_ ->]|rewrite H]
         end.
    all: eexists _, _; split; [reflexivity|]; first [apply dict_get_set_eq|reflexivity].
  - intros name fn p Hin Hp Hfalsy.
    assert (Hfields : payload_fields p = []).
    { destruct p; try done. simpl in Hfalsy. by destruct entries. }
    apply configured_agents_cases in Hin as [[-> ->]|[[-> ->]|[-> ->]]].
    1: rewrite Hp in H1; destruct H1 as [_ ->].
    2: rewrite Hp in H2; destruct H2 as [_ ->].
    3: rewrite Hp in H3; destruct H3 as [_ ->].
    all: rewrite Hfields; unfold recorded_outcome; rewrite Hp; reflexivity.
Qed.

Lemma run_entries_carry_timing_witness :
  exists structured outcomes,
    run degraded_orchestrator sentiment_first "doc" = Ok (structured, outcomes) /\
    dict_get "sentiment" structured
    = Some (PyDict [("processing_time_seconds", PyFloat 0)]).
Proof.
  destruct (run degraded_orchestrator sentiment_first "doc")
    as [[structured outcomes]|] eqn:Hrun; [|discriminate Hrun].
  exists structured, outcomes. split; [reflexivity|].
  refine (proj2 (run_entries_carry_timing _ _ _ _ _ Hrun)
            "sentiment" (returning PyNone 300) PyNone _ eq_refl eq_refl).
  unfold configured_agents; simpl.
  apply list_elem_of_further, list_elem_of_further, list_elem_of_here.
Defined.

(** The completion order of the model does vary with the schedule: here
    the sentiment agent finishes first and the entity extractor last. *)
Example completion_order_sentiment_first :
  keys (completion_order (_graph healthy_orchestrator) sentiment_first)
  = ["sentiment"; "summary"; "entities"].
Proof. reflexivity. Qed.

(** C8. Whatever the order in which the three agents complete, the keys
    of the merged results and of the outcomes by name come in the order of
    the configuration: summary, entities, sentiment. Indeed the whole
    result of a run does not depend on the completion order. *)
Theorem run_key_order_stable (self : AnalysisOrchestrator) (picks : list nat)
    (text : string) (structured : dict pyval) (outcomes : dict AgentOutcome) :
  run self picks text = Ok (structured, outcomes) ->
  keys structured = ["summary"; "entities"; "sentiment"] /\
  keys outcomes = ["summary"; "entities"; "sentiment"] /\
  forall picks', run self picks' text = Ok (structured, outcomes).
Proof.
  intros Hrun. split; [|split].
  - by apply run_Ok_inv in Hrun as (e1 & e2 & e3 & _ & _ & _ & -> & _).
  - by apply run_Ok_inv in Hrun as (e1 & e2 & e3 & _ & _ & _ & _ & ->).
  - intros picks'. by apply (run_schedule_irrelevant self picks picks').
Qed.

Lemma run_key_order_stable_witness :
  exists structured outcomes,
    run healthy_orchestrator sentiment_first "doc" = Ok (structured, outcomes) /\
    keys structured = ["summary"; "entities"; "sentiment"] /\
    keys outcomes = ["summary"; "entities"; "sentiment"] /\
    run healthy_orchestrator [1%nat; 1%nat] "doc" = Ok (structured, outcomes).
Proof.
  destruct (run healthy_orchestrator sentiment_first "doc")
    as [[structured outcomes]|] eqn:Hrun; [|discriminate Hrun].
  exists structured, outcomes. split; [reflexivity|].
  destruct (run_key_order_stable _ _ _ _ _ Hrun) as (Hs & Ho & Hany).
  exact (conj Hs (conj Ho (Hany [1%nat; 1%nat]))).
Defined.

(** ** The job runner *)

Lemma structured_entry_timed_Ok name fn text :
  (forall p, awaited (fn text) = Ok p -> record_like p = true) ->
  exists entry, structured_entry (recorded_outcome name fn text) = Ok entry.
Proof.
  intros Hp. unfold structured_entry, recorded_outcome.
  destruct (awaited (fn text)) as [p|exc]; simpl; [|eauto].
  rewrite setitem_record_like by auto. eauto.
Qed.

(** A run returns as soon as no agent raises outside [Exception] and
    every payload handed back by an agent is a dataclass instance, a dict
    or an empty value. *)
Lemma run_returns self picks text :
  none_escapes self text ->
  (forall name fn p, (name, fn) ∈ configured_agents self ->
     awaited (fn text) = Ok p -> record_like p = true) ->
  exists structured outcomes, run self picks text = Ok (structured, outcomes).
Proof.
  intros Hnone Hp. rewrite run_unfold by done.
  unfold timed_outcomes, configured_agents in *. simpl.
  destruct (structured_entry_timed_Ok "summary" (_summarizer self) text)
    as [e1 ->].
  { intros p. apply (Hp "summary"). apply list_elem_of_here. }
  destruct (structured_entry_timed_Ok "entities" (_entity_extractor self) text)
    as [e2 ->].
  { intros p. apply (Hp "entities"). apply list_elem_of_further, list_elem_of_here. }
  destruct (structured_entry_timed_Ok "sentiment" (_sentiment_analyzer self) text)
    as [e3 ->].
  { intros p. apply (Hp "sentiment").
    apply list_elem_of_further, list_elem_of_further, list_elem_of_here. }
  simpl. eauto.
Qed.

(** The three recorded durations of a run that returned. *)
Lemma run_durations self picks text structured outcomes :
  run self picks text = Ok (structured, outcomes) ->
  map processing_time_seconds (values outcomes)
  = [ processing_time_seconds (recorded_outcome "summary" (_summarizer self) text);
      processing_time_seconds (recorded_outcome "entities" (_entity_extractor self) text);
      processing_time_seconds (recorded_outcome "sentiment" (_sentiment_analyzer self) text) ].
Proof.
  intros Hrun. apply run_Ok_inv in Hrun as (e1 & e2 & e3 & _ & _ & _ & _ & ->).
  simpl. by rewrite !after_merge_time.
Qed.

Lemma run_successes self picks text structured outcomes :
  run self picks text = Ok (structured, outcomes) ->
  map success (values outcomes)
  = [ negb (raises (_summarizer self text));
      negb (raises (_entity_extractor self text));
      negb (raises (_sentiment_analyzer self text)) ].
Proof.
  intros Hrun. apply run_Ok_inv in Hrun as (e1 & e2 & e3 & _ & _ & _ & _ & ->).
  simpl. rewrite !after_merge_success.
  unfold raises.
  rewrite !timed_success. by repeat case_match.
Qed.

Lemma filter_success_length (outcomes : list AgentOutcome) :
  length (filter (fun outcome => success outcome = true) outcomes)
  = length (filter (fun b => b = true) (map success outcomes)).
Proof.
  induction outcomes as [|o outcomes IH]; [done|].
  rewrite fmap_cons, !filter_cons. destruct (success o); simpl; by rewrite IH.
Qed.

(** The record written by the runner when extraction and orchestration
    both went through. *)
Lemma process_job_orchestrated fs orchestrator picks now id store job text
    structured outcomes :
  store !! id = Some job ->
  extract_text fs (filepath job) = Ok text ->
  run orchestrator picks text = Ok (structured, outcomes) ->
  let done := Z.of_nat (length (filter (fun outcome => success outcome = true)
                                       (values outcomes))) in
  let lost := Z.of_nat (length outcomes) - done in
  let verdict := if lost =? 0 then completed else partial in
  _process_job fs orchestrator picks now id store
  = (<[id := mkJob (job_id job) (filename job) (filepath job) verdict structured
                   (analysis_started_at job) (Some now)
                   (Some (round3 (max_default 0
                            (map processing_time_seconds (values outcomes)))))
                   done lost
                   (if bool_decide (verdict = partial)
                    then Some "Partial results available - one or more agents failed."
                    else None)]> store,
     [CalledExtractText (filepath job); CalledOrchestratorRun text]).
Proof. intros Hjob Htext Hrun. unfold _process_job. by rewrite Hjob, Htext, Hrun. Qed.

Lemma mark_job_failed_lookup id message now store job :
  store !! id = Some job ->
  _mark_job_failed id message now store !! id
  = Some (mkJob (job_id job) (filename job) (filepath job) failed
            [ ("summary", error_slot message);
              ("entities", error_slot message);
              ("sentiment", error_slot message) ]
            (analysis_started_at job) (Some now) (Some 0) 0 3 (Some message)).
Proof. intros Hjob. unfold _mark_job_failed. by rewrite Hjob, lookup_insert_eq. Qed.

(** C3. When the orchestration of a job completes, the total processing
    time written to the job record is the maximum of the durations
    recorded in the outcomes (the maximum being 0 for no outcomes): it is
    one of the recorded durations and none of them exceeds it. It is not
    their sum: it never exceeds the sum, and it is strictly below the sum
    as soon as two agents recorded a positive duration. *)
Theorem total_time_is_max_duration (fs : filesystem)
    (orchestrator : AnalysisOrchestrator) (picks : list nat) (now : Z)
    (id : string) (store : gmap string job) (job : job) (text : string)
    (structured : dict pyval) (outcomes : dict AgentOutcome) :
  store !! id = Some job ->
  extract_text fs (filepath job) = Ok text ->
  run orchestrator picks text = Ok (structured, outcomes) ->
  let durations := map processing_time_seconds (values outcomes) in
  exists job',
    fst (_process_job fs orchestrator picks now id store) !! id = Some job' /\
    total_processing_time_seconds job' = Some (max_default 0 durations) /\
    max_default 0 durations ∈ durations /\
    (forall d, d ∈ durations -> d <= max_default 0 durations) /\
    max_default 0 durations <= zsum durations /\
    ((2 <= length (filter (fun d : Z => (0 < d)%Z) durations))%nat ->
     max_default 0 durations < zsum durations).
Proof.
  intros Hjob Htext Hrun durations.
  rewrite (process_job_orchestrated _ _ _ _ _ _ _ _ _ _ Hjob Htext Hrun).
  simpl. rewrite lookup_insert_eq. eexists. split; [reflexivity|]. simpl.
  fold durations.
  assert (Hdur : durations
                 = [ processing_time_seconds (recorded_outcome "summary" (_summarizer orchestrator) text);
                     processing_time_seconds (recorded_outcome "entities" (_entity_extractor orchestrator) text);
                     processing_time_seconds (recorded_outcome "sentiment" (_sentiment_analyzer orchestrator) text) ])
    by (by eapply run_durations).
  assert (Hmem : max_default 0 durations ∈ durations)
    by (apply max_default_elem; by rewrite Hdur).
  pose proof (timed_time_nonneg "summary" (_summarizer orchestrator) text) as Hs.
  pose proof (timed_time_nonneg "entities" (_entity_extractor orchestrator) text) as He.
  pose proof (timed_time_nonneg "sentiment" (_sentiment_analyzer orchestrator) text) as Ht.
  split; [|split; [done|split; [intros d; apply max_default_upper|]]].
  - f_equal. revert Hmem. rewrite Hdur at 2.
    rewrite !elem_of_cons, elem_of_nil.
    intros [->|[->|[->|[]]]]; apply timed_time_rounded.
  - rewrite Hdur. unfold max_default, zsum. simpl. split; [lia|].
    rewrite !filter_cons, filter_nil. repeat case_decide; simpl; lia.
Qed.

Lemma total_time_is_max_duration_witness :
  exists job',
    jobs_store server_job1_partial !! "job1" = Some job' /\
    total_processing_time_seconds job' = Some 400000 /\
    400000 < zsum [400000; 201000; 0].
Proof.
  destruct (run degraded_orchestrator sentiment_first
              "Acme Corp reported record growth.")
    as [[structured outcomes]|] eqn:Hrun; [|discriminate Hrun].
  destruct (total_time_is_max_duration disk degraded_orchestrator sentiment_first
              2000 "job1" (jobs_store server_job1_processing)
              _ _ structured outcomes eq_refl eq_refl Hrun)
    as (job' & Hjob' & Htotal & _ & _ & _ & Hstrict).
  exists job'. split; [exact Hjob'|].
  vm_compute in Hrun. injection Hrun as <- <-.
  split; [exact Htotal|]. apply Hstrict. vm_compute. lia.
Defined.

(** The one case in which the maximum and the sum of the recorded
    durations are the same number: at most one agent records a positive
    duration. Here the summarizer takes 0.4 s and the two other agents
    finish within a fraction of a millisecond, which is recorded as 0.0. *)
Example single_positive_duration :
  exists job' structured outcomes,
    run lopsided_orchestrator [] "Acme Corp reported record growth."
    = Ok (structured, outcomes) /\
    fst (_process_job disk lopsided_orchestrator [] 2000 "job1"
           (jobs_store server_job1_processing)) !! "job1" = Some job' /\
    map processing_time_seconds (values outcomes) = [400000; 0; 0] /\
    total_processing_time_seconds job'
    = Some (zsum (map processing_time_seconds (values outcomes))).
Proof.
  eexists _, _, _. split; [by vm_compute|].
  split; [by vm_compute|]. split; reflexivity.
Qed.

Lemma failing_agents_length self text :
  Z.of_nat (length (failing_agents self text))
  = 3 - Z.of_nat (length (filter (fun b => b = true)
        [ negb (raises (_summarizer self text));
          negb (raises (_entity_extractor self text));
          negb (raises (_sentiment_analyzer self text)) ])).
Proof.
  unfold failing_agents, configured_agents, keys.
  rewrite length_fmap, !filter_cons, !filter_nil. simpl.
  destruct (raises (_summarizer self text)),
           (raises (_entity_extractor self text)),
           (raises (_sentiment_analyzer self text)); reflexivity.
Qed.

(** C4, counterexample. A document stored under an extension the parser
    does not support, with no agent forced to fail: the job runner
    finishes, three agents are counted as failed, and the stored status is
    [failed], neither [completed] nor [partial]. *)
Lemma unsupported_document_is_not_partial :
  failing_agents healthy_orchestrator "any text" = [] /\
  exists job',
    fst (_process_job disk healthy_orchestrator [] 2000 "job2"
           (jobs_store server_job2_processing)) !! "job2" = Some job' /\
    agents_completed job' + agents_failed job' = 3 /\
    agents_failed job' <> 0 /\
    status job' = failed /\
    status job' <> partial.
Proof.
  split; [reflexivity|].
  eexists. split; [by vm_compute|]. simpl. by repeat split.
Qed.

(** C4, as the code has it. Take any stored document and any set of
    agents forced to fail. Once the job runner has finished, the completed
    and failed counts add up to the three configured agents, and the
    stored status is [completed] exactly when no agent is counted as
    failed. Otherwise the status is [partial] when text extraction and
    the orchestrator run went through, the failed count then being the
    number of agents that failed; and it is [failed], with three agents
    counted as failed, when text extraction or the orchestrator run itself
    failed. *)
Theorem counts_add_up_and_decide_status (fs : filesystem)
    (orchestrator : AnalysisOrchestrator) (picks : list nat) (now : Z)
    (id : string) (store : gmap string job) (job : job) :
  store !! id = Some job ->
  let after := _process_job fs orchestrator picks now id store in
  (forall exc, Propagated exc ∉ snd after) ->
  exists job',
    fst after !! id = Some job' /\
    agents_completed job' + agents_failed job' = 3 /\
    (status job' = completed <-> agents_failed job' = 0) /\
    match extract_text fs (filepath job) with
    | Ok text =>
        match run orchestrator picks text with
        | Ok _ =>
            agents_failed job'
            = Z.of_nat (length (failing_agents orchestrator text)) /\
            (agents_failed job' <> 0 -> status job' = partial)
        | Raise _ => agents_failed job' = 3 /\ status job' = failed
        end
    | Raise _ => agents_failed job' = 3 /\ status job' = failed
    end.
Proof.
  intros Hjob after Hfinished. subst after.
  destruct (extract_text fs (filepath job)) as [text|exc] eqn:Htext.
  - destruct (run orchestrator picks text) as [[structured outcomes]|exc] eqn:Hrun.
    + rewrite (process_job_orchestrated _ _ _ _ _ _ _ _ _ _ Hjob Htext Hrun).
      simpl. rewrite lookup_insert_eq. eexists. split; [reflexivity|]. simpl.
      rewrite filter_success_length, (run_successes _ _ _ _ _ Hrun).
      rewrite failing_agents_length.
      assert (Hlen : length outcomes = 3%nat).
      { by apply run_Ok_inv in Hrun as (e1 & e2 & e3 & _ & _ & _ & _ & ->). }
      rewrite Hlen. change (Z.of_nat 3) with 3.
      set (done := Z.of_nat (length (filter _ _))).
      split; [lia|].
      destruct (Z.eqb_spec (3 - done) 0) as [E|E].
      * split; [done|]. split; [done|]. intros Hne. by destruct Hne.
      * split; [|done]. split; [discriminate|]. intros E'. by destruct E.
    + unfold _process_job in *. rewrite Hjob, Htext, Hrun in *.
      destruct (is_Exception exc); simpl in *.
      * rewrite (mark_job_failed_lookup _ _ _ _ _ Hjob).
        eexists. split; [reflexivity|]. simpl. by repeat split.
      * exfalso. apply (Hfinished exc).
        apply list_elem_of_further, list_elem_of_further, list_elem_of_here.
  - unfold _process_job in *. rewrite Hjob, Htext in *.
    destruct (is_UnsupportedDocumentError exc || is_OSError exc); simpl in *.
    + rewrite (mark_job_failed_lookup _ _ _ _ _ Hjob).
      eexists. split; [reflexivity|]. simpl. by repeat split.
    + exfalso. apply (Hfinished exc).
      apply list_elem_of_further, list_elem_of_here.
Qed.

Lemma counts_add_up_and_decide_status_witness :
  exists job',
    jobs_store server_job1_partial !! "job1" = Some job' /\
    agents_completed job' + agents_failed job' = 3 /\
    agents_failed job' = 1 /\
    status job' = partial.
Proof.
  destruct (counts_add_up_and_decide_status disk degraded_orchestrator
              sentiment_first 2000 "job1" (jobs_store server_job1_processing)
              _ eq_refl)
    as (job' & Hjob' & Hsum & _ & Hfailed & Hpartial).
  - intros exc Hin. vm_compute in Hin.
    repeat (apply elem_of_cons in Hin as [Hin|Hin]; [discriminate Hin|]).
    by apply elem_of_nil in Hin.
  - exists job'. split; [exact Hjob'|]. split; [exact Hsum|].
    split; [exact Hfailed|]. apply Hpartial.
    rewrite Hfailed. discriminate.
Defined.

(** ** Failed extraction *)

(** C7. When text extraction fails for a job, because the format is not
    supported or with an I/O error, the job becomes [failed]; each of the
    three result slots holds the same error message with a processing time
    of 0.0; the total processing time is 0.0, no agent is counted as
    completed and three as failed; and the orchestrator is not run. *)
Theorem extraction_failure_fails_job (fs : filesystem)
    (orchestrator : AnalysisOrchestrator) (picks : list nat) (now : Z)
    (id : string) (store : gmap string job) (job : job) (exc : exception) :
  store !! id = Some job ->
  extract_text fs (filepath job) = Raise exc ->
  is_UnsupportedDocumentError exc || is_OSError exc = true ->
  let after := _process_job fs orchestrator picks now id store in
  let slot :=
    PyDict [ ("error", PyStr ("Document parsing failed: " ++ exc_str exc));
             ("processing_time_seconds", PyFloat 0) ] in
  exists job',
    fst after !! id = Some job' /\
    status job' = failed /\
    results job' = [("summary", slot); ("entities", slot); ("sentiment", slot)] /\
    total_processing_time_seconds job' = Some 0 /\
    agents_completed job' = 0 /\
    agents_failed job' = 3 /\
    forall text, CalledOrchestratorRun text ∉ snd after.
Proof.
  intros Hjob Hexc Hclass. simpl. unfold _process_job.
  rewrite Hjob, Hexc, Hclass. simpl.
  rewrite (mark_job_failed_lookup _ _ _ _ _ Hjob).
  eexists. split; [reflexivity|]. simpl. repeat split.
  intros text. rewrite elem_of_cons, elem_of_nil. by intros [[=]|[]].
Qed.

Lemma extraction_failure_fails_job_witness :
  exists job',
    jobs_store server_job2_failed !! "job2" = Some job' /\
    status job' = failed /\
    agents_failed job' = 3 /\
    total_processing_time_seconds job' = Some 0.
Proof.
  destruct (extraction_failure_fails_job disk healthy_orchestrator [] 2000 "job2"
              (jobs_store server_job2_processing) _ _ eq_refl eq_refl eq_refl)
    as (job' & Hjob' & Hstatus & _ & Htotal & _ & Hfailed & _).
  exists job'. exact (conj Hjob' (conj Hstatus (conj Hfailed Htotal))).
Defined.

(** When every agent is run, the orchestrator was called. *)
Example orchestrator_called_after_extraction :
  snd (_process_job disk degraded_orchestrator sentiment_first 2000 "job1"
         (jobs_store server_job1_processing))
  = [ CalledExtractText "uploads/job1.txt";
      CalledOrchestratorRun "Acme Corp reported record growth." ].
Proof. reflexivity. Qed.

(** ** Triggering analysis *)

(** C1, as the code has it. Triggering analysis on a job that is
    [processing], [completed] or [partial] is rejected with a conflict
    (409) and leaves the whole server state, hence the job's record,
    unchanged. A [failed] job is accepted again: it goes back to
    [processing] with its results, counters, warning and total time reset,
    and a new background run is scheduled. *)
Theorem analyze_conflicts (s : server) (id : string) (now : Z) (job : job) :
  jobs_store s !! id = Some job ->
  (status job = processing \/ status job = completed \/ status job = partial ->
   exists detail, analyze_document id now s = (HTTPException 409 detail, s)) /\
  (status job = failed ->
   exists body s' job',
     analyze_document id now s = (Response200 body, s') /\
     jobs_store s' !! id = Some job' /\
     status job' = processing /\
     results job' = [] /\
     agents_completed job' = 0 /\
     agents_failed job' = 0 /\
     warning job' = None /\
     total_processing_time_seconds job' = None /\
     background_tasks s' = (background_tasks s ++ [id])%list).
Proof.
  intros Hjob. unfold analyze_document. rewrite Hjob. split.
  - intros [Hs | [Hs | Hs]]; rewrite Hs; simpl; eauto.
  - intros ->. simpl. eexists _, _, _. split; [reflexivity|]. simpl.
    rewrite lookup_insert_eq. by repeat split.
Qed.

Lemma analyze_conflicts_witness :
  (exists detail,
     analyze_document "job1" 3000 server_job1_partial
     = (HTTPException 409 detail, server_job1_partial)) /\
  (exists body s' job',
     analyze_document "job2" 3000 server_job2_failed = (Response200 body, s') /\
     jobs_store s' !! "job2" = Some job' /\
     status job' = processing).
Proof.
  destruct (jobs_store server_job1_partial !! "job1") as [job1|] eqn:H1;
    [|discriminate H1].
  destruct (jobs_store server_job2_failed !! "job2") as [job2|] eqn:H2;
    [|discriminate H2].
  split.
  - apply (proj1 (analyze_conflicts server_job1_partial "job1" 3000 job1 H1)).
    right; right. vm_compute in H1. by injection H1 as <-.
  - destruct (proj2 (analyze_conflicts server_job2_failed "job2" 3000 job2 H2))
      as (body & s' & job' & Hcall & Hget & Hstatus & _).
    { vm_compute in H2. by injection H2 as <-. }
    exists body, s', job'. auto.
Defined.

(** ** Reachable job records *)

Lemma server_job2_failed_reachable : reachable server_job2_failed.
Proof.
  unfold reachable.
  eapply rtc_l; [apply (step_upload docx_upload "job2")|].
  eapply rtc_l; [apply (step_analyze "job2" 1000)|].
  eapply rtc_l; [|apply rtc_refl].
  exact (step_launch_analysis disk healthy_orchestrator [] 2000 "job2" [] []
           server_job2_processing eq_refl).
Qed.

Lemma server_job1_partial_reachable : reachable server_job1_partial.
Proof.
  unfold reachable.
  eapply rtc_l; [apply (step_upload text_upload "job1")|].
  eapply rtc_l; [apply (step_analyze "job1" 1000)|].
  eapply rtc_l; [|apply rtc_refl].
  exact (step_launch_analysis disk degraded_orchestrator sentiment_first 2000
           "job1" [] [] server_job1_processing eq_refl).
Qed.

(** C1, counterexample. A job whose extraction failed is reachable in the
    [failed] state, and triggering analysis on it is answered with 200 and
    moves it back to [processing]. *)
Lemma failed_job_is_analyzed_again :
  reachable server_job2_failed /\
  exists failed_job body s' job',
    jobs_store server_job2_failed !! "job2" = Some failed_job /\
    status failed_job = failed /\
    analyze_document "job2" 3000 server_job2_failed = (Response200 body, s') /\
    jobs_store s' !! "job2" = Some job' /\
    status job' = processing /\
    job' <> failed_job.
Proof.
  split; [apply server_job2_failed_reachable|].
  eexists _, _, _, _. split; [by vm_compute|]. split; [reflexivity|].
  split; [reflexivity|]. split; [by vm_compute|]. split; [reflexivity|].
  discriminate.
Qed.

(** C2, counterexample. A reachable job record in the [failed] state
    whose warning is set. *)
Lemma failed_job_has_warning :
  exists j,
    reachable_job j /\
    status j = failed /\
    warning j
    = Some "Document parsing failed: Unsupported document extension '.docx'. Only PDF and TXT are allowed." /\
    ~ (warning j <> None <-> status j = partial).
Proof.
  eexists. split; [|split; [|split]].
  - exists server_job2_failed, "job2".
    split; [apply server_job2_failed_reachable|]. by vm_compute.
  - reflexivity.
  - reflexivity.
  - simpl. intros [Hwarn _]. by specialize (Hwarn ltac:(discriminate)).
Qed.

Lemma well_formed_uploaded id name path :
  well_formed (mkJob id name path uploaded [] None None None 0 0 None).
Proof. unfold well_formed; simpl. split; [|done]. split; [done|]. by intros [|]. Qed.

Lemma well_formed_processing id name path started finished :
  well_formed (mkJob id name path processing [] started finished None 0 0 None).
Proof. unfold well_formed; simpl. split; [|done]. split; [done|]. by intros [|]. Qed.

Lemma well_formed_failed id name path started finished total message :
  well_formed
    (mkJob id name path failed
       [ ("summary", error_slot message);
         ("entities", error_slot message);
         ("sentiment", error_slot message) ]
       started finished total 0 3 (Some message)).
Proof. unfold well_formed; simpl. split; [|done]. split; [by right|done]. Qed.

Lemma all_well_formed_insert id j store :
  well_formed j -> all_well_formed store -> all_well_formed (<[id := j]> store).
Proof.
  intros Hj Hstore id' j'. rewrite lookup_insert.
  case_decide; [by intros [= <-]|apply Hstore].
Qed.

Lemma mark_job_failed_well_formed id message now store :
  all_well_formed store -> all_well_formed (_mark_job_failed id message now store).
Proof.
  intros Hstore. unfold _mark_job_failed.
  destruct (store !! id) as [j|]; [|done].
  by apply all_well_formed_insert; [apply well_formed_failed|].
Qed.

Lemma upload_document_well_formed file new_id write_bytes s :
  all_well_formed (jobs_store s) ->
  all_well_formed (jobs_store (snd (upload_document file new_id write_bytes s))).
Proof.
  intros Hs. unfold upload_document. repeat case_match; simpl; try done.
  all: by apply all_well_formed_insert; [apply well_formed_uploaded|].
Qed.

Lemma analyze_document_well_formed id now s :
  all_well_formed (jobs_store s) ->
  all_well_formed (jobs_store (snd (analyze_document id now s))).
Proof.
  intros Hs. unfold analyze_document. repeat case_match; simpl; try done.
  by apply all_well_formed_insert; [apply well_formed_processing|].
Qed.

Lemma process_job_well_formed fs orchestrator picks now id store :
  all_well_formed store ->
  all_well_formed (fst (_process_job fs orchestrator picks now id store)).
Proof.
  intros Hstore. unfold _process_job.
  destruct (store !! id) as [j|] eqn:Hj; [|done].
  destruct (extract_text fs (filepath j)) as [text|exc].
  - destruct (run orchestrator picks text) as [[structured outcomes]|exc] eqn:Hrun;
      simpl;
      [|destruct (is_Exception exc); simpl;
        [by apply mark_job_failed_well_formed|done]].
    apply all_well_formed_insert; [|done].
    assert (Hkeys : keys structured = agent_names).
    { by apply run_Ok_inv in Hrun as (e1 & e2 & e3 & _ & _ & _ & -> & _). }
    unfold well_formed; simpl.
    destruct (_ =? 0); simpl; (split; [|done]).
    + split; [done|]. by intros [|].
    + split; [by left|done].
  - destruct (is_UnsupportedDocumentError exc || is_OSError exc); simpl; [|done].
    by apply mark_job_failed_well_formed.
Qed.

Lemma reachable_well_formed s : reachable s -> all_well_formed (jobs_store s).
Proof.
  unfold reachable.
  apply (rtc_ind_r (fun s => all_well_formed (jobs_store s)) initial_server).
  - intros id j. simpl. by rewrite lookup_empty.
  - intros before after _ Hstep IH. destruct Hstep.
    + by apply upload_document_well_formed.
    + by apply analyze_document_well_formed.
    + simpl. by apply process_job_well_formed.
Qed.

(** C2, as the code has it. In every reachable job record the warning is
    set exactly when the status is [partial] or [failed]: a job that ends
    [partial] or [failed] carries a warning, and a job that is [uploaded],
    [processing] or [completed] has none. *)
Theorem warning_iff_partial_or_failed (j : job) :
  reachable_job j ->
  (warning j <> None <-> status j = partial \/ status j = failed) /\
  (status j = uploaded \/ status j = processing \/ status j = completed ->
   warning j = None).
Proof.
  intros (s & id & Hreach & Hj).
  destruct (reachable_well_formed s Hreach id j Hj) as (Hwarn & _ & _).
  split; [done|]. intros Hstatus.
  destruct (warning j) as [text|] eqn:E; [|done].
  destruct Hwarn as [Hwarn _].
  destruct (Hwarn ltac:(discriminate)) as [Hs|Hs]; rewrite Hs in Hstatus;
    by destruct Hstatus as [|[|]].
Qed.

Lemma warning_iff_partial_or_failed_witness :
  exists j,
    jobs_store server_job1_partial !! "job1" = Some j /\
    status j = partial /\
    warning j <> None.
Proof.
  destruct (jobs_store server_job1_partial !! "job1") as [j|] eqn:Hj;
    [|discriminate Hj].
  exists j. split; [reflexivity|].
  assert (Hstatus : status j = partial).
  { vm_compute in Hj. by injection Hj as <-. }
  split; [exact Hstatus|].
  apply (proj1 (warning_iff_partial_or_failed j
                  (ex_intro _ server_job1_partial
                     (ex_intro _ "job1"
                        (conj server_job1_partial_reachable Hj))))).
  left. exact Hstatus.
Defined.

(** C9. In every reachable job record the results are empty while the
    status is [uploaded] or [processing], and hold exactly one entry per
    configured agent, under the keys summary, entities and sentiment, once
    the status is [completed], [partial] or [failed]. *)
Theorem results_follow_status (j : job) :
  reachable_job j ->
  (status j = uploaded \/ status j = processing -> results j = []) /\
  (status j = completed \/ status j = partial \/ status j = failed ->
   keys (results j) = ["summary"; "entities"; "sentiment"]).
Proof.
  intros (s & id & Hreach & Hj).
  destruct (reachable_well_formed s Hreach id j Hj) as (_ & Hempty & Hfull).
  split.
  - intros [Hs|Hs]; apply Hempty; by rewrite Hs.
  - intros [Hs|[Hs|Hs]]; apply Hfull; by rewrite Hs.
Qed.

Lemma results_follow_status_witness :
  (exists j,
     jobs_store server_job1_processing !! "job1" = Some j /\
     status j = processing /\ results j = []) /\
  (exists j,
     jobs_store server_job1_partial !! "job1" = Some j /\
     status j = partial /\
     keys (results j) = ["summary"; "entities"; "sentiment"]).
Proof.
  assert (Hreach : reachable server_job1_processing).
  { unfold reachable.
    eapply rtc_l; [apply (step_upload text_upload "job1")|].
    eapply rtc_l; [apply (step_analyze "job1" 1000)|]. apply rtc_refl. }
  split.
  - destruct (jobs_store server_job1_processing !! "job1") as [j|] eqn:Hj;
      [|discriminate Hj].
    exists j. split; [reflexivity|].
    assert (Hstatus : status j = processing).
    { vm_compute in Hj. by injection Hj as <-. }
    split; [exact Hstatus|].
    apply (proj1 (results_follow_status j
                    (ex_intro _ _ (ex_intro _ "job1" (conj Hreach Hj))))).
    right. exact Hstatus.
  - destruct (jobs_store server_job1_partial !! "job1") as [j|] eqn:Hj;
      [|discriminate Hj].
    exists j. split; [reflexivity|].
    assert (Hstatus : status j = partial).
    { vm_compute in Hj. by injection Hj as <-. }
    split; [exact Hstatus|].
    apply (proj2 (results_follow_status j
                    (ex_intro _ _
                       (ex_intro _ "job1"
                          (conj server_job1_partial_reachable Hj))))).
    right; left. exact Hstatus.
Defined.

(** * Further properties of the code *)

(** ** When a run of the orchestrator returns *)

Lemma setitem_Raise obj key value exc :
  setitem obj key value = Raise exc -> exc_type exc = TypeError.
Proof. destruct obj; simpl; intros [= <-]; reflexivity. Qed.

Lemma setitem_payload_or_empty_Raise p key value exc :
  setitem (payload_or_empty p) key value = Raise exc -> record_like p = false.
Proof.
  intros Hraise. destruct (record_like p) eqn:E; [|done].
  by rewrite setitem_record_like in Hraise.
Qed.

Lemma structured_entry_timed_Raise name fn text exc :
  structured_entry (recorded_outcome name fn text) = Raise exc ->
  exc_type exc = TypeError /\
  exists p, awaited (fn text) = Ok p /\ record_like p = false.
Proof.
  unfold structured_entry, recorded_outcome.
  destruct (awaited (fn text)) as [p|exc']; simpl; [|done].
  intros Hraise. split; [by eapply setitem_Raise|].
  exists p. split; [done|]. by eapply setitem_payload_or_empty_Raise.
Qed.



Lemma run_Raise_inv self picks text exc :
  run self picks text = Raise exc ->
  (is_Exception exc = false /\
   exists name fn,
     (name, fn) ∈ configured_agents self /\ awaited (fn text) = Raise exc) \/
  (exc_type exc = TypeError /\
   none_escapes self text /\
   exists name fn p,
     (name, fn) ∈ configured_agents self /\
     awaited (fn text) = Ok p /\ record_like p = false).
Proof.
  unfold run.
  destruct (ainvoke (_graph self) picks text) as [raw|exc'] eqn:Hgraph.
  2: { intros [= <-]. left. by eapply graph_Raise. }
  pose proof (graph_Ok_inv _ _ _ _ Hgraph) as Hnone.
  rewrite graph_results in Hgraph by done. injection Hgraph as <-.
  intros Hraise. right.
  assert (Hfrom : exc_type exc = TypeError /\
            exists name fn p,
              (name, fn) ∈ configured_agents self /\
              awaited (fn text) = Ok p /\ record_like p = false);
    [|by destruct Hfrom].
  revert Hraise. simpl.
  destruct (structured_entry (recorded_outcome "summary" _ _)) as [e1|x1] eqn:H1.
  2: { intros [= <-]. apply structured_entry_timed_Raise in H1 as [? (p & ? & ?)].
       split; [done|]. exists "summary", (_summarizer self), p.
       split; [apply list_elem_of_here|done]. }
  destruct (structured_entry (recorded_outcome "entities" _ _)) as [e2|x2] eqn:H2.
  2: { intros [= <-]. apply structured_entry_timed_Raise in H2 as [? (p & ? & ?)].
       split; [done|]. exists "entities", (_entity_extractor self), p.
       split; [apply list_elem_of_further, list_elem_of_here|done]. }
  destruct (structured_entry (recorded_outcome "sentiment" _ _)) as [e3|x3] eqn:H3.
  2: { intros [= <-]. apply structured_entry_timed_Raise in H3 as [? (p & ? & ?)].
       split; [done|]. exists "sentiment", (_sentiment_analyzer self), p.
       split; [|done].
       apply list_elem_of_further, list_elem_of_further, list_elem_of_here. }
  simpl. discriminate.
Qed.



(** X2. Every outcome a run returns is filed under its own name; it is
    successful exactly when it carries no error, a failed outcome has no
    payload, and its duration is a non-negative whole number of
    milliseconds. *)
Theorem run_outcomes_well_formed (self : AnalysisOrchestrator) (picks : list nat)
    (text : string) (structured : dict pyval) (outcomes : dict AgentOutcome) :
  run self picks text = Ok (structured, outcomes) ->
  forall key outcome, (key, outcome) ∈ outcomes ->
    name outcome = key /\
    (success outcome = true <-> error outcome = None) /\
    (success outcome = false -> payload outcome = PyNone) /\
    0 <= processing_time_seconds outcome /\
    exists ms, processing_time_seconds outcome = 1000 * ms.
Proof.
  intros Hrun key outcome Hin.
  apply run_Ok_inv in Hrun as (e1 & e2 & e3 & _ & _ & _ & _ & ->).
  assert (Hone : forall agent fn,
            let o := after_merge (recorded_outcome agent fn text) in
            name o = agent /\
            (success o = true <-> error o = None) /\
            (success o = false -> payload o = PyNone) /\
            0 <= processing_time_seconds o /\
            exists ms, processing_time_seconds o = 1000 * ms).
  { intros agent fn. simpl.
    rewrite after_merge_time, after_merge_success.
    split; [|split; [|split; [|split]]].
    - unfold after_merge, recorded_outcome.
      destruct (awaited (fn text)) as [p|exc]; simpl; [|done].
      by destruct p as [| | | | | |[|]|].
    - unfold after_merge, recorded_outcome.
      destruct (awaited (fn text)) as [p|exc]; simpl; [|done].
      by destruct p as [| | | | | |[|]|].
    - unfold after_merge, recorded_outcome.
      destruct (awaited (fn text)) as [p|exc]; simpl; done.
    - apply timed_time_nonneg.
    - unfold recorded_outcome. destruct (awaited (fn text)); simpl; apply round3_multiple. }
  revert Hin. rewrite !elem_of_cons, elem_of_nil.
  intros [[= -> ->]|[[= -> ->]|[[= -> ->]|[]]]]; apply Hone.
Qed.

Lemma run_outcomes_well_formed_witness :
  exists outcome,
    dict_get "entities" (timed_outcomes degraded_orchestrator "doc") = Some outcome /\
    name outcome = "entities" /\
    success outcome = false /\
    payload outcome = PyNone.
Proof.
  destruct (run degraded_orchestrator sentiment_first "doc")
    as [[structured outcomes]|] eqn:Hrun; [|discriminate Hrun].
  pose proof (run_outcomes_well_formed _ _ _ _ _ Hrun) as Hall.
  vm_compute in Hrun. injection Hrun as <- <-.
  eexists. split; [reflexivity|].
  destruct (Hall "entities" (mkAgentOutcome "entities" false PyNone 201000
                               (Some "LLM unavailable")))
    as (Hname & _ & Hpayload & _).
  { apply list_elem_of_further, list_elem_of_here. }
  split; [exact Hname|]. split; [reflexivity|]. exact (Hpayload eq_refl).
Defined.

(** ** The job runner on its other paths *)

Lemma mark_job_failed_other id other message now store :
  other <> id -> _mark_job_failed id message now store !! other = store !! other.
Proof.
  intros Hne. unfold _mark_job_failed.
  destruct (store !! id); [|done]. by rewrite lookup_insert_ne.
Qed.

Lemma process_job_other fs orchestrator picks now id store other :
  other <> id ->
  fst (_process_job fs orchestrator picks now id store) !! other = store !! other.
Proof.
  intros Hne. unfold _process_job.
  destruct (store !! id) as [job|] eqn:Hjob; [|done].
  destruct (extract_text fs (filepath job)) as [text|exc].
  - destruct (run orchestrator picks text) as [[structured outcomes]|exc]; simpl.
    + by rewrite lookup_insert_ne.
    + destruct (is_Exception exc); simpl; [|done].
      by apply mark_job_failed_other.
  - destruct (_ || _); simpl; [|done]. by apply mark_job_failed_other.
Qed.

(** X3. A run of the job runner touches no record but that of its own
    job: for an unknown identifier the store is left as it is, the record
    of every other job is untouched, and in the record of the job itself
    the identifier, the file name, the file path and the start time stay
    what they were. *)
Theorem process_job_touches_only_its_job (fs : filesystem)
    (orchestrator : AnalysisOrchestrator) (picks : list nat) (now : Z)
    (id : string) (store : gmap string job) :
  let after := _process_job fs orchestrator picks now id store in
  (store !! id = None -> after = (store, [WarnedUnknownJob id])) /\
  (forall other, other <> id -> fst after !! other = store !! other) /\
  (forall job, store !! id = Some job ->
     exists job',
       fst after !! id = Some job' /\
       job_id job' = job_id job /\
       filename job' = filename job /\
       filepath job' = filepath job /\
       analysis_started_at job' = analysis_started_at job).
Proof.
  simpl. unfold _process_job. split; [|split].
  - by intros ->.
  - intros other Hne. by apply process_job_other.
  - intros job Hjob. rewrite Hjob.
    destruct (extract_text fs (filepath job)) as [text|exc].
    + destruct (run orchestrator picks text) as [[structured outcomes]|exc]; simpl.
      * rewrite lookup_insert_eq. by eexists.
      * destruct (is_Exception exc); simpl; [|by exists job].
        rewrite (mark_job_failed_lookup _ _ _ _ _ Hjob). by eexists.
    + destruct (_ || _); simpl.
      * rewrite (mark_job_failed_lookup _ _ _ _ _ Hjob). by eexists.
      * by exists job.
Qed.

Lemma process_job_touches_only_its_job_witness :
  fst (_process_job disk healthy_orchestrator [] 2000 "job2"
         (jobs_store server_job1_partial)) !! "job1"
  = jobs_store server_job1_partial !! "job1"
  /\ _process_job disk healthy_orchestrator [] 2000 "job2"
       (jobs_store server_job1_partial)
     = (jobs_store server_job1_partial, [WarnedUnknownJob "job2"]).
Proof.
  destruct (process_job_touches_only_its_job disk healthy_orchestrator [] 2000
              "job2" (jobs_store server_job1_partial))
    as (Hunknown & Hother & _).
  split.
  - apply Hother. discriminate.
  - apply Hunknown. by vm_compute.
Defined.



(** X5. When the stored upload is no longer on disk at the time the task
    runs, the job ends [failed] and its warning and result slots say
    ["Document parsing failed: Document not found at "] followed by the
    path; the orchestrator is not run. *)
Theorem missing_file_fails_job (fs : filesystem)
    (orchestrator : AnalysisOrchestrator) (picks : list nat) (now : Z)
    (id : string) (store : gmap string job) (job : job) :
  store !! id = Some job ->
  fs (filepath job) = None ->
  let after := _process_job fs orchestrator picks now id store in
  let message :=
    "Document parsing failed: Document not found at " ++ filepath job in
  exists job',
    fst after !! id = Some job' /\
    status job' = failed /\
    warning job' = Some message /\
    results job' = [ ("summary", error_slot message);
                     ("entities", error_slot message);
                     ("sentiment", error_slot message) ] /\
    snd after = [CalledExtractText (filepath job)].
Proof.
  intros Hjob Hmissing. simpl. unfold _process_job, extract_text.
  rewrite Hjob, Hmissing. simpl.
  rewrite (mark_job_failed_lookup _ _ _ _ _ Hjob). by eexists.
Qed.

Lemma missing_file_fails_job_witness :
  exists job',
    fst (_process_job damaged_disk healthy_orchestrator [] 2000 "job1"
           (jobs_store server_job1_processing)) !! "job1" = Some job' /\
    status job' = failed /\
    warning job'
    = Some "Document parsing failed: Document not found at uploads/job1.txt".
Proof.
  destruct (missing_file_fails_job damaged_disk healthy_orchestrator [] 2000
              "job1" (jobs_store server_job1_processing) _ eq_refl eq_refl)
    as (job' & Hjob' & Hstatus & Hwarning & _).
  exists job'. auto.
Defined.


(** ** The registry over time *)

Lemma upload_document_cases file new_id write_bytes s :
  snd (upload_document file new_id write_bytes s) = s \/
  exists path,
    snd (upload_document file new_id write_bytes s)
    = mkServer (<[new_id := mkJob new_id (upload_filename file) path uploaded []
                              None None None 0 0 None]> (jobs_store s))
               (background_tasks s).
Proof.
  unfold upload_document. repeat case_match; simpl; eauto.
Qed.

Lemma analyze_document_cases id now s :
  snd (analyze_document id now s) = s \/
  exists job,
    jobs_store s !! id = Some job /\
    (status job = uploaded \/ status job = failed) /\
    snd (analyze_document id now s)
    = mkServer (<[id := mkJob (job_id job) (filename job) (filepath job)
                          processing [] (Some now) (analysis_finished_at job)
                          None 0 0 None]> (jobs_store s))
               (background_tasks s ++ [id])%list.
Proof.
  unfold analyze_document.
  destruct (jobs_store s !! id) as [job|] eqn:Hjob; [|by left].
  destruct (status job) eqn:Hstatus; simpl; try by left.
  - right. exists job. rewrite Hstatus. auto.
  - right. exists job. rewrite Hstatus. auto.
Qed.

Lemma slot_time_error_slot message : slot_time (error_slot message) = Some 0.
Proof. reflexivity. Qed.

Lemma slot_time_structured_entry name fn text entry :
  structured_entry (recorded_outcome name fn text) = Ok entry ->
  slot_time entry = Some (processing_time_seconds (recorded_outcome name fn text)).
Proof.
  intros Hentry. apply structured_entry_timed in Hentry. simpl in Hentry.
  destruct (awaited (fn text)) as [p|exc].
  - destruct Hentry as [_ ->]. simpl. by rewrite dict_get_set_eq.
  - by rewrite Hentry.
Qed.

(** The slots of a returned mapping show the recorded durations. *)
Lemma run_slot_times self picks text structured outcomes :
  run self picks text = Ok (structured, outcomes) ->
  map slot_time (values structured)
  = map Some (map processing_time_seconds (values outcomes)).
Proof.
  intros Hrun. rewrite (run_durations _ _ _ _ _ Hrun).
  apply run_Ok_inv in Hrun as (e1 & e2 & e3 & H1 & H2 & H3 & -> & _).
  unfold _run_summary, _run_entities, _run_sentiment in *. simpl.
  by rewrite (slot_time_structured_entry _ _ _ _ H1),
             (slot_time_structured_entry _ _ _ _ H2),
             (slot_time_structured_entry _ _ _ _ H3).
Qed.

Lemma run_durations_rounded self picks text structured outcomes :
  run self picks text = Ok (structured, outcomes) ->
  let durations := map processing_time_seconds (values outcomes) in
  Forall (fun t => 0 <= t) durations /\
  round3 (max_default 0 durations) = max_default 0 durations.
Proof.
  intros Hrun durations. subst durations.
  rewrite (run_durations _ _ _ _ _ Hrun).
  split.
  - repeat (apply Forall_cons; split; [apply timed_time_nonneg|]).
    apply Forall_nil_2.
  - set (durations := [_; _; _]).
    assert (Hmem : max_default 0 durations ∈ durations)
      by (by apply max_default_elem).
    revert Hmem. unfold durations at 2.
    rewrite !elem_of_cons, elem_of_nil.
    intros [->|[->|[->|[]]]]; apply timed_time_rounded.
Qed.

Lemma run_completed_count self picks text structured outcomes :
  run self picks text = Ok (structured, outcomes) ->
  length outcomes = 3%nat /\
  (length (filter (fun outcome => success outcome = true) (values outcomes))
   <= 3)%nat.
Proof.
  intros Hrun.
  apply run_Ok_inv in Hrun as (e1 & e2 & e3 & _ & _ & _ & _ & ->).
  split; [done|]. simpl. rewrite !filter_cons, filter_nil.
  repeat case_decide; simpl; lia.
Qed.

Lemma coherent_failed_record id name path started now message :
  started <> None ->
  coherent
    (mkJob id name path failed
       [ ("summary", error_slot message);
         ("entities", error_slot message);
         ("sentiment", error_slot message) ]
       started (Some now) (Some 0) 0 3 (Some message)).
Proof.
  intros Hstarted. unfold coherent; simpl. split_and!; try done.
  exists [0; 0; 0]. split_and!; try done.
  repeat (apply Forall_cons; split; [lia|]). apply Forall_nil_2.
Qed.

(** What the job runner makes of a coherent record that is being
    processed. *)
Lemma process_job_processing fs orchestrator picks now id store j :
  store !! id = Some j ->
  status j = processing ->
  coherent j ->
  exists j',
    fst (_process_job fs orchestrator picks now id store) !! id = Some j' /\
    job_id j' = job_id j /\
    coherent j' /\
    (j' = j \/ transition (status j) (status j') = true).
Proof.
  intros Hj Hstatus Hcoherent.
  assert (Hstarted : analysis_started_at j <> None).
  { unfold coherent in Hcoherent. rewrite Hstatus in Hcoherent. tauto. }
  destruct (extract_text fs (filepath j)) as [text|exc] eqn:Htext.
  - destruct (run orchestrator picks text) as [[structured outcomes]|exc] eqn:Hrun.
    + rewrite (process_job_orchestrated _ _ _ _ _ _ _ _ _ _ Hj Htext Hrun).
      simpl. rewrite lookup_insert_eq. eexists. split; [reflexivity|]. simpl.
      split; [done|].
      destruct (run_completed_count _ _ _ _ _ Hrun) as [Hlen Hdone].
      destruct (run_durations_rounded _ _ _ _ _ Hrun) as [Hpos Hround].
      simpl in Hpos, Hround.
      assert (Hlargest : forall verdict finished done lost w,
                total_is_largest_slot_time
                  (mkJob (job_id j) (filename j) (filepath j) verdict structured
                     (analysis_started_at j) finished
                     (Some (round3 (max_default 0
                        (map processing_time_seconds (values outcomes)))))
                     done lost w)).
      { intros. exists (map processing_time_seconds (values outcomes)). simpl.
        split; [by eapply run_slot_times|]. split; [done|]. by rewrite Hround. }
      rewrite Hlen, Hstatus. change (Z.of_nat 3) with 3.
      set (done := Z.of_nat (length (filter _ _))) in *.
      assert (0 <= done <= 3) by (subst done; lia).
      destruct (Z.eqb_spec (3 - done) 0) as [E|E].
      * split; [|by right]. unfold coherent; simpl.
        split_and!; first [done | lia | apply Hlargest].
      * split; [|by right]. unfold coherent; simpl.
        split_and!; first [done | lia | apply Hlargest].
    + unfold _process_job. rewrite Hj, Htext, Hrun.
      destruct (is_Exception exc); simpl; [|exists j; auto].
      rewrite (mark_job_failed_lookup _ _ _ _ _ Hj).
      eexists. split; [reflexivity|]. simpl. split; [done|].
      split; [by apply coherent_failed_record|]. right. by rewrite Hstatus.
  - unfold _process_job. rewrite Hj, Htext.
    destruct (_ || _); simpl.
    + rewrite (mark_job_failed_lookup _ _ _ _ _ Hj).
      eexists. split; [reflexivity|]. simpl. split; [done|].
      split; [by apply coherent_failed_record|]. right. by rewrite Hstatus.
    + exists j. auto.
Qed.

Lemma orderly_initial : orderly initial_server.
Proof.
  split; [split|].
  - apply NoDup_nil_2.
  - intros id Hin. by apply elem_of_nil in Hin.
  - intros id j. simpl. by rewrite lookup_empty.
Qed.

(** One step with a fresh identifier: the state stays orderly, no record
    is dropped, and a record changes only along an edge of the status
    graph. *)
Lemma fresh_step_orderly s s' :
  fresh_step s s' ->
  orderly s ->
  orderly s' /\
  forall id j, jobs_store s !! id = Some j ->
    exists j', jobs_store s' !! id = Some j' /\
               (j' = j \/ transition (status j) (status j') = true).
Proof.
  intros Hstep [[Hnodup Hqueued] Hrecords]. destruct Hstep as
    [file new_id write_bytes s Hfresh|request_id now s
    |fs orchestrator picks now id earlier later s Htasks].
  - destruct (upload_document_cases file new_id write_bytes s) as [->|[path ->]].
    { split; [done|]. intros id j Hj. exists j. auto. }
    split; [split; [split|]|]; simpl.
    + done.
    + intros id Hin. destruct (Hqueued id Hin) as (j & Hj & Hstatus).
      exists j. split; [|done]. rewrite lookup_insert_ne; [done|congruence].
    + intros id j. rewrite lookup_insert. case_decide as Hid.
      * intros [= <-]. subst. simpl. by unfold coherent.
      * apply Hrecords.
    + intros id j Hj. exists j. split; [|by left].
      rewrite lookup_insert_ne; [done|congruence].
  - destruct (analyze_document_cases request_id now s)
      as [->|(job & Hjob & Hstatus & ->)].
    { split; [done|]. intros id j Hj. exists j. auto. }
    assert (Hnotqueued : request_id ∉ background_tasks s).
    { intros Hin. destruct (Hqueued _ Hin) as (j & Hj & Hprocessing).
      rewrite Hjob in Hj. injection Hj as <-.
      destruct Hstatus as [Hs|Hs]; congruence. }
    destruct (Hrecords _ _ Hjob) as [Hid Hcoherent].
    split; [split; [split|]|]; simpl.
    + apply NoDup_app. split; [done|]. split; [|apply NoDup_singleton].
      intros x Hx Hx'. apply list_elem_of_singleton in Hx'. by subst.
    + intros id Hin. apply elem_of_app in Hin as [Hin|Hin].
      * destruct (Hqueued id Hin) as (j & Hj & Hprocessing).
        exists j. split; [|done].
        rewrite lookup_insert_ne; [done|]. intros ->. done.
      * apply list_elem_of_singleton in Hin as ->.
        rewrite lookup_insert_eq. by eexists.
    + intros id j. rewrite lookup_insert. case_decide as Heq.
      * intros [= <-]. subst. simpl. split; [done|]. by unfold coherent.
      * apply Hrecords.
    + intros id j Hj. destruct (decide (request_id = id)) as [<-|Hne].
      * rewrite lookup_insert_eq. eexists. split; [reflexivity|]. right.
        rewrite Hjob in Hj. injection Hj as <-. simpl.
        by destruct Hstatus as [->| ->].
      * rewrite lookup_insert_ne by done. exists j. auto.
  - rewrite Htasks in Hnodup, Hqueued.
    assert (Hnodup' : NoDup (earlier ++ later)).
    { apply NoDup_app in Hnodup as (H1 & H2 & H3).
      apply NoDup_cons in H3 as [_ H3]. apply NoDup_app.
      split; [done|]. split; [|done].
      intros x Hx Hx'. apply (H2 x Hx). by apply list_elem_of_further. }
    assert (Hgone : id ∉ (earlier ++ later)%list).
    { apply NoDup_app in Hnodup as (H1 & H2 & H3).
      apply NoDup_cons in H3 as [H3 _]. intros Hin.
      apply elem_of_app in Hin as [Hin|Hin]; [|done].
      apply (H2 id Hin). apply list_elem_of_here. }
    destruct (Hqueued id) as (j & Hj & Hprocessing).
    { apply elem_of_app. right. apply list_elem_of_here. }
    destruct (Hrecords _ _ Hj) as [Hid Hcoherent].
    destruct (process_job_processing fs orchestrator picks now id _ j
                Hj Hprocessing Hcoherent)
      as (j' & Hj' & Hid' & Hcoherent' & Hmove).
    split; [split; [split|]|]; simpl.
    + done.
    + intros other Hin.
      destruct (Hqueued other) as (jo & Hjo & Hso).
      { apply elem_of_app in Hin as [Hin|Hin]; apply elem_of_app; [by left|].
        right. by apply list_elem_of_further. }
      exists jo. split; [|done].
      rewrite process_job_other; [done|]. intros ->. done.
    + intros other jo. destruct (decide (other = id)) as [->|Hne].
      * rewrite Hj'. intros [= <-]. split; [congruence|done].
      * rewrite process_job_other by done. apply Hrecords.
    + intros other jo Hjo. destruct (decide (other = id)) as [->|Hne].
      * rewrite Hj in Hjo. injection Hjo as <-. by exists j'.
      * rewrite process_job_other by done. exists jo. auto.
Qed.

Lemma fresh_reachable_orderly s : fresh_reachable s -> orderly s.
Proof.
  unfold fresh_reachable.
  apply (rtc_ind_r (fun s => orderly s) initial_server).
  - apply orderly_initial.
  - intros before after _ Hstep IH.
    exact (proj1 (fresh_step_orderly before after Hstep IH)).
Qed.

Lemma fresh_steps_orderly s s' : orderly s -> rtc fresh_step s s' -> orderly s'.
Proof.
  intros Hs Hsteps. induction Hsteps as [|s mid s' Hstep _ IH]; [done|].
  apply IH. exact (proj1 (fresh_step_orderly s mid Hstep Hs)).
Qed.

Lemma server_job1_processing_fresh : fresh_reachable server_job1_processing.
Proof.
  unfold fresh_reachable.
  eapply rtc_l; [exact (fresh_upload text_upload "job1" writable initial_server eq_refl)|].
  eapply rtc_l; [apply (fresh_analyze "job1" 1000)|]. apply rtc_refl.
Qed.

Lemma server_job1_partial_fresh : fresh_reachable server_job1_partial.
Proof.
  eapply rtc_r; [apply server_job1_processing_fresh|].
  exact (fresh_launch_analysis disk degraded_orchestrator sentiment_first 2000
           "job1" [] [] server_job1_processing eq_refl).
Qed.

Lemma server_job1_completed_fresh : fresh_reachable server_job1_completed.
Proof.
  eapply rtc_r; [apply server_job1_processing_fresh|].
  exact (fresh_launch_analysis disk healthy_orchestrator sentiment_first 2000
           "job1" [] [] server_job1_processing eq_refl).
Qed.

Lemma server_job3_processing_fresh : fresh_reachable server_job3_processing.
Proof.
  unfold fresh_reachable.
  eapply rtc_l; [exact (fresh_upload pdf_upload "job3" writable initial_server eq_refl)|].
  eapply rtc_l; [apply (fresh_analyze "job3" 1000)|]. apply rtc_refl.
Qed.

(** X6. As long as identifiers are not reused, no job is ever scheduled
    twice at the same time, and every scheduled background task belongs
    to a job that is in the [processing] state. *)
Theorem scheduled_jobs_are_processing (s : server) :
  fresh_reachable s ->
  NoDup (background_tasks s) /\
  forall id, id ∈ background_tasks s ->
    exists j, jobs_store s !! id = Some j /\ status j = processing.
Proof. intros Hs. exact (proj1 (fresh_reachable_orderly s Hs)). Qed.

Lemma scheduled_jobs_are_processing_witness :
  exists j,
    jobs_store server_job1_processing !! "job1" = Some j /\
    status j = processing.
Proof.
  apply (proj2 (scheduled_jobs_are_processing server_job1_processing
                  server_job1_processing_fresh) "job1").
  apply list_elem_of_here.
Defined.

(** X7. As long as identifiers are not reused, every record is stored
    under its own [job_id] and its bookkeeping goes with its status: the
    start time is unset exactly for an [uploaded] job; the total time is
    set exactly for a finished job, which also has a finish time; both
    counters are 0 until the job is finished; a [completed] job counts 3
    and 0, a [failed] job 0 and 3 with a total of 0.0, and a [partial] job
    between 1 and 3 failures with the two counters adding up to 3. *)
Theorem bookkeeping_follows_status (s : server) (id : string) (j : job) :
  fresh_reachable s ->
  jobs_store s !! id = Some j ->
  job_id j = id /\
  (analysis_started_at j = None <-> status j = uploaded) /\
  (total_processing_time_seconds j <> None <-> terminal (status j) = true) /\
  (terminal (status j) = true -> analysis_finished_at j <> None) /\
  (terminal (status j) = false ->
   agents_completed j = 0 /\ agents_failed j = 0) /\
  (status j = completed -> agents_completed j = 3 /\ agents_failed j = 0) /\
  (status j = failed ->
   agents_completed j = 0 /\ agents_failed j = 3 /\
   total_processing_time_seconds j = Some 0) /\
  (status j = partial ->
   1 <= agents_failed j <= 3 /\ agents_completed j + agents_failed j = 3).
Proof.
  intros Hs Hj.
  destruct (proj2 (fresh_reachable_orderly s Hs) id j Hj) as [Hid Hcoherent].
  split; [done|]. unfold coherent in Hcoherent.
  destruct (status j) eqn:Hstatus; simpl.
  - destruct Hcoherent as (Hstart & Hfinish & Htotal & Hc & Hf).
    rewrite Hstart, Htotal. repeat split; intros; try done; try tauto.
  - destruct Hcoherent as (Hstart & Htotal & Hc & Hf).
    rewrite Htotal. repeat split; intros; try done; try tauto.
  - destruct Hcoherent as (Hstart & Hfinish & Hc & Hf & (times & _ & _ & Htotal)).
    rewrite Htotal. repeat split; intros; try done; try tauto.
  - destruct Hcoherent as (Hstart & Hfinish & Hf & Hc & (times & _ & _ & Htotal)).
    rewrite Htotal. repeat split; intros; try done; try tauto; lia.
  - destruct Hcoherent as (Hstart & Hfinish & Hc & Hf & Htotal & _).
    rewrite Htotal. repeat split; intros; try done; try tauto.
Qed.

Lemma bookkeeping_follows_status_witness :
  exists j,
    jobs_store server_job1_partial !! "job1" = Some j /\
    job_id j = "job1" /\
    agents_completed j + agents_failed j = 3.
Proof.
  destruct (jobs_store server_job1_partial !! "job1") as [j|] eqn:Hj;
    [|discriminate Hj].
  exists j. split; [reflexivity|].
  destruct (bookkeeping_follows_status server_job1_partial "job1" j
              server_job1_partial_fresh Hj)
    as (Hid & _ & _ & _ & _ & _ & _ & Hpartial).
  split; [exact Hid|]. apply Hpartial.
  vm_compute in Hj. by injection Hj as <-.
Defined.

(** X8. As long as identifiers are not reused, the total processing time
    of every finished job, whether [completed], [partial] or [failed], is
    the largest of the [processing_time_seconds] values shown in its
    result slots, each of which holds such a value, none negative. *)
Theorem total_is_largest_time_shown (s : server) (id : string) (j : job) :
  fresh_reachable s ->
  jobs_store s !! id = Some j ->
  terminal (status j) = true ->
  exists times,
    map slot_time (values (results j)) = map Some times /\
    Forall (fun t => 0 <= t) times /\
    total_processing_time_seconds j = Some (max_default 0 times).
Proof.
  intros Hs Hj Hterminal.
  destruct (proj2 (fresh_reachable_orderly s Hs) id j Hj) as [_ Hcoherent].
  unfold coherent in Hcoherent.
  destruct (status j); try done; unfold total_is_largest_slot_time in *; tauto.
Qed.

Lemma total_is_largest_time_shown_witness :
  exists j times,
    jobs_store server_job1_partial !! "job1" = Some j /\
    map slot_time (values (results j)) = map Some times /\
    total_processing_time_seconds j = Some (max_default 0 times).
Proof.
  destruct (jobs_store server_job1_partial !! "job1") as [j|] eqn:Hj;
    [|discriminate Hj].
  destruct (total_is_largest_time_shown server_job1_partial "job1" j
              server_job1_partial_fresh Hj)
    as (times & Hslots & _ & Htotal).
  { vm_compute in Hj. by injection Hj as <-. }
  exists j, times. auto.
Defined.

(** X9. As long as identifiers are not reused, a step of the server never
    removes a record, and when it changes one, the status moves along an
    edge of the status graph: [uploaded] to [processing], [processing] to
    [completed], [partial] or [failed], or [failed] back to
    [processing]. *)
Theorem status_moves_along_edges (s s' : server) (id : string) (j : job) :
  fresh_reachable s ->
  fresh_step s s' ->
  jobs_store s !! id = Some j ->
  exists j',
    jobs_store s' !! id = Some j' /\
    (j' = j \/ transition (status j) (status j') = true).
Proof.
  intros Hs Hstep Hj.
  exact (proj2 (fresh_step_orderly s s' Hstep (fresh_reachable_orderly s Hs))
           id j Hj).
Qed.

Lemma status_moves_along_edges_witness :
  exists j',
    jobs_store server_job1_partial !! "job1" = Some j' /\
    (j' = mkJob "job1" "report.txt" "uploads/job1.txt" processing []
            (Some 1000) None None 0 0 None
     \/ transition processing (status j') = true).
Proof.
  exact (status_moves_along_edges server_job1_processing server_job1_partial
           "job1" _ server_job1_processing_fresh
           (fresh_launch_analysis disk degraded_orchestrator sentiment_first 2000
              "job1" [] [] server_job1_processing eq_refl)
           eq_refl).
Defined.

(** A record that no request and no task can touch: the job is finished
    for good, or it is being processed with no task scheduled for it. *)
Lemma fresh_step_settled s s' id j :
  orderly s ->
  fresh_step s s' ->
  jobs_store s !! id = Some j ->
  status j = completed \/ status j = partial \/
  (status j = processing /\ id ∉ background_tasks s) ->
  jobs_store s' !! id = Some j /\
  (id ∉ background_tasks s -> id ∉ background_tasks s').
Proof.
  intros [[Hnodup Hqueued] Hrecords] Hstep Hj Hsettled.
  assert (Hnotqueued : id ∉ background_tasks s).
  { intros Hin. destruct (Hqueued id Hin) as (j0 & Hj0 & Hprocessing).
    rewrite Hj in Hj0. injection Hj0 as <-.
    destruct Hsettled as [Hs|[Hs|[_ Hs]]]; [congruence|congruence|done]. }
  destruct Hstep as
    [file new_id write_bytes s Hfresh|request_id now s
    |fs orchestrator picks now tid earlier later s Htasks].
  - destruct (upload_document_cases file new_id write_bytes s) as [->|[path ->]]; [done|].
    simpl. split; [|done]. rewrite lookup_insert_ne; [done|congruence].
  - destruct (analyze_document_cases request_id now s)
      as [->|(job & Hjob & Hstatus & ->)]; [done|].
    assert (Hne : request_id <> id).
    { intros ->. rewrite Hj in Hjob. injection Hjob as <-.
      destruct Hstatus as [Hu|Hf], Hsettled as [Hs|[Hs|[Hs _]]]; congruence. }
    simpl. split; [by rewrite lookup_insert_ne|].
    intros _ Hin. apply elem_of_app in Hin as [Hin|Hin]; [done|].
    apply list_elem_of_singleton in Hin. congruence.
  - assert (Hne : id <> tid).
    { intros ->. apply Hnotqueued. rewrite Htasks.
      apply elem_of_app. right. apply list_elem_of_here. }
    simpl. split; [by rewrite process_job_other|].
    intros _ Hin. apply Hnotqueued. rewrite Htasks.
    apply elem_of_app in Hin as [Hin|Hin]; apply elem_of_app; [by left|].
    right. by apply list_elem_of_further.
Qed.

Lemma fresh_steps_settled s s' id j :
  orderly s ->
  rtc fresh_step s s' ->
  jobs_store s !! id = Some j ->
  id ∉ background_tasks s ->
  status j = completed \/ status j = partial \/ status j = processing ->
  jobs_store s' !! id = Some j /\ id ∉ background_tasks s'.
Proof.
  intros Hs Hsteps. revert Hs.
  induction Hsteps as [|s mid s' Hstep _ IH]; intros Hs Hj Hnotqueued Hstatus;
    [done|].
  destruct (fresh_step_settled s mid id j Hs Hstep Hj) as [Hj' Hnot'].
  { destruct Hstatus as [?|[?|?]]; auto. }
  apply IH; auto. exact (proj1 (fresh_step_orderly s mid Hstep Hs)).
Qed.

(** X10. As long as identifiers are not reused, a [completed] or
    [partial] job is final: whatever requests and tasks follow, its record
    stays exactly as it is, and triggering analysis on it is answered with
    409 without any change of state. *)
Theorem finished_jobs_never_change (s s' : server) (id : string) (j : job) :
  fresh_reachable s ->
  rtc fresh_step s s' ->
  jobs_store s !! id = Some j ->
  status j = completed \/ status j = partial ->
  jobs_store s' !! id = Some j /\
  forall now,
    analyze_document id now s'
    = (HTTPException 409 "Analysis already completed.", s').
Proof.
  intros Hs Hsteps Hj Hstatus.
  pose proof (fresh_reachable_orderly s Hs) as Horderly.
  assert (Hnotqueued : id ∉ background_tasks s).
  { intros Hin.
    destruct (proj2 (proj1 Horderly) id Hin) as (j0 & Hj0 & Hprocessing).
    rewrite Hj in Hj0. injection Hj0 as <-.
    destruct Hstatus; congruence. }
  destruct (fresh_steps_settled s s' id j Horderly Hsteps Hj Hnotqueued)
    as [Hj' _].
  { destruct Hstatus; auto. }
  split; [done|]. intros now. unfold analyze_document. rewrite Hj'.
  by destruct Hstatus as [-> | ->].
Qed.

Lemma finished_jobs_never_change_witness :
  exists j,
    jobs_store server_job1_completed !! "job1" = Some j /\
    status j = completed /\
    jobs_store (snd (upload_document docx_upload "job2" writable server_job1_completed))
    !! "job1" = Some j.
Proof.
  destruct (jobs_store server_job1_completed !! "job1") as [j|] eqn:Hj;
    [|discriminate Hj].
  assert (Hstatus : status j = completed).
  { vm_compute in Hj. by injection Hj as <-. }
  exists j. split; [reflexivity|]. split; [exact Hstatus|].
  refine (proj1 (finished_jobs_never_change server_job1_completed _ "job1" j
                   server_job1_completed_fresh _ Hj (or_introl Hstatus))).
  apply rtc_once.
  exact (fresh_upload docx_upload "job2" writable server_job1_completed eq_refl).
Defined.

(** X11. When the task of a job dies on an extraction error that is
    neither an [UnsupportedDocumentError] nor an [OSError] (a PDF that
    cannot be parsed, say), the exception propagates and the job is left
    in [processing] with no task scheduled. As long as identifiers are not
    reused, it stays so for good: its record never changes again and
    every attempt to trigger analysis is answered with 409. *)
Theorem unexpected_extraction_error_strands_job (s s' : server)
    (fs : filesystem) (orchestrator : AnalysisOrchestrator) (picks : list nat)
    (now : Z) (id : string) (earlier later : list string) (j : job)
    (exc : exception) :
  fresh_reachable s ->
  background_tasks s = (earlier ++ id :: later)%list ->
  jobs_store s !! id = Some j ->
  extract_text fs (filepath j) = Raise exc ->
  is_UnsupportedDocumentError exc || is_OSError exc = false ->
  let ran := _process_job fs orchestrator picks now id (jobs_store s) in
  rtc fresh_step (mkServer (fst ran) (earlier ++ later)%list) s' ->
  Propagated exc ∈ snd ran /\
  status j = processing /\
  jobs_store s' !! id = Some j /\
  (id ∉ background_tasks s') /\
  forall later_on,
    analyze_document id later_on s'
    = (HTTPException 409 "Analysis already in progress.", s').
Proof.
  intros Hs Htasks Hj Hexc Hclass ran Hsteps. subst ran.
  pose proof (fresh_reachable_orderly s Hs) as Horderly.
  destruct (proj2 (proj1 Horderly) id) as (j0 & Hj0 & Hprocessing).
  { rewrite Htasks. apply elem_of_app. right. apply list_elem_of_here. }
  rewrite Hj in Hj0. injection Hj0 as <-.
  assert (Hran : _process_job fs orchestrator picks now id (jobs_store s)
                 = (jobs_store s, [CalledExtractText (filepath j); Propagated exc])).
  { unfold _process_job. by rewrite Hj, Hexc, Hclass. }
  rewrite Hran in *. simpl in *.
  split; [apply list_elem_of_further, list_elem_of_here|]. split; [done|].
  set (mid := mkServer (jobs_store s) (earlier ++ later)) in *.
  assert (Hmid : orderly mid).
  { pose proof (fresh_step_orderly s
                  (mkServer (fst (_process_job fs orchestrator picks now id
                                    (jobs_store s))) (earlier ++ later))
                  (fresh_launch_analysis fs orchestrator picks now id earlier later
                     s Htasks) Horderly) as [Hm _].
    by rewrite Hran in Hm. }
  assert (Hgone : id ∉ background_tasks mid).
  { simpl. destruct Horderly as [[Hnodup _] _]. rewrite Htasks in Hnodup.
    apply NoDup_app in Hnodup as (H1 & H2 & H3).
    apply NoDup_cons in H3 as [H3 _]. intros Hin.
    apply elem_of_app in Hin as [Hin|Hin]; [|done].
    apply (H2 id Hin). apply list_elem_of_here. }
  destruct (fresh_steps_settled mid s' id j Hmid Hsteps Hj Hgone) as [Hj' Hnot'];
    [auto|].
  split; [done|]. split; [done|].
  intros later_on. unfold analyze_document. by rewrite Hj', Hprocessing.
Qed.

Lemma unexpected_extraction_error_strands_job_witness :
  exists j,
    jobs_store server_job3_stuck !! "job3" = Some j /\
    status j = processing /\
    analyze_document "job3" 9000 server_job3_stuck
    = (HTTPException 409 "Analysis already in progress.", server_job3_stuck).
Proof.
  destruct (jobs_store server_job3_processing !! "job3") as [j|] eqn:Hj;
    [|discriminate Hj].
  destruct (unexpected_extraction_error_strands_job server_job3_processing
              server_job3_stuck damaged_disk healthy_orchestrator [] 2000 "job3"
              [] [] j
              (mkException OtherException "No /Root object! - Is this really a PDF?")
              server_job3_processing_fresh eq_refl Hj)
    as (_ & Hstatus & Hj' & _ & Hconflict).
  - vm_compute in Hj. by injection Hj as <-.
  - reflexivity.
  - apply rtc_refl.
  - exists j. split; [exact Hj'|]. split; [exact Hstatus|]. apply Hconflict.
Defined.

(** ** The request handlers *)

(** X12. Triggering analysis is accepted exactly for a job that exists and
    is [uploaded] or [failed]. A rejected request (404 for an unknown
    identifier, and only then; 409 otherwise) changes nothing and creates
    no record; an accepted one answers [processing], schedules exactly one
    background task, for this job, and leaves the record of every other
    job as it is. The handler never ends in an internal error. *)
Theorem analyze_document_effect (id : string) (now : Z) (s : server) :
  let response := fst (analyze_document id now s) in
  let s' := snd (analyze_document id now s) in
  (jobs_store s !! id = None ->
   response = HTTPException 404 "Unknown job_id." /\ s' = s) /\
  (forall other, other <> id -> jobs_store s' !! other = jobs_store s !! other) /\
  match response with
  | Response200 body =>
      response_status body = processing /\
      response_job_id body = id /\
      background_tasks s' = (background_tasks s ++ [id])%list /\
      exists job, jobs_store s !! id = Some job /\
                  (status job = uploaded \/ status job = failed)
  | HTTPException code _ =>
      (code = 404 \/ code = 409) /\ s' = s /\
      (forall job, jobs_store s !! id = Some job ->
                   status job <> uploaded /\ status job <> failed) /\
      (code = 404 <-> jobs_store s !! id = None)
  | InternalServerError _ => False
  end.
Proof.
  simpl. unfold analyze_document.
  destruct (jobs_store s !! id) as [job|] eqn:Hjob; simpl.
  - split; [done|].
    destruct (status job) eqn:Hstatus; simpl.
    + split; [intros other Hne; by rewrite lookup_insert_ne|].
      split_and!; try done. exists job. auto.
    + split; [done|]. split_and!; auto; try done.
      intros ? [= <-]. rewrite Hstatus. by split.
    + split; [done|]. split_and!; auto; try done.
      intros ? [= <-]. rewrite Hstatus. by split.
    + split; [done|]. split_and!; auto; try done.
      intros ? [= <-]. rewrite Hstatus. by split.
    + split; [intros other Hne; by rewrite lookup_insert_ne|].
      split_and!; try done. exists job. auto.
  - split; [done|]. split; [done|]. split_and!; auto; done.
Qed.

Lemma analyze_document_effect_witness :
  fst (analyze_document "job7" 3000 server_job1_partial)
  = HTTPException 404 "Unknown job_id."
  /\ snd (analyze_document "job7" 3000 server_job1_partial) = server_job1_partial.
Proof.
  apply (proj1 (analyze_document_effect "job7" 3000 server_job1_partial)).
  by vm_compute.
Defined.

Lemma analyze_document_processing id now s j :
  jobs_store s !! id = Some j ->
  status j = processing ->
  analyze_document id now s
  = (HTTPException 409 "Analysis already in progress.", s).
Proof. intros Hj Hstatus. unfold analyze_document. by rewrite Hj, Hstatus. Qed.

(** X13. Once a request to analyse a job has been accepted, every further
    request for the same job that arrives before the task scheduled for
    it has run is answered with 409 ["Analysis already in progress."] and
    changes nothing. This holds for a request that follows at once, and,
    as long as identifiers are not reused, for a request that arrives
    after any number of other uploads, requests and task runs, the task
    of this job still being scheduled. At no later time is any job
    scheduled twice. *)
Theorem analyze_document_twice (id : string) (now : Z) (s s1 : server)
    (body : response_body) :
  analyze_document id now s = (Response200 body, s1) ->
  (forall later,
     analyze_document id later s1
     = (HTTPException 409 "Analysis already in progress.", s1)) /\
  (fresh_reachable s ->
   forall s', rtc fresh_step s1 s' ->
     NoDup (background_tasks s') /\
     (id ∈ background_tasks s' ->
      forall later,
        analyze_document id later s'
        = (HTTPException 409 "Analysis already in progress.", s'))).
Proof.
  intros Haccepted. split.
  - intros later. revert Haccepted. unfold analyze_document at 1.
    destruct (jobs_store s !! id) as [job|]; [|done].
    destruct (status job); simpl; try done.
    all: intros [= <- <-]; unfold analyze_document; simpl;
         by rewrite lookup_insert_eq.
  - intros Hs s' Hsteps.
    assert (Hs1 : orderly s1).
    { replace s1 with (snd (analyze_document id now s))
        by (by rewrite Haccepted).
      apply (fresh_step_orderly s); [apply fresh_analyze|].
      by apply fresh_reachable_orderly. }
    destruct (fresh_steps_orderly s1 s' Hs1 Hsteps) as [[Hnodup Hqueued] _].
    split; [done|]. intros Hin later.
    destruct (Hqueued id Hin) as (j & Hj & Hstatus).
    by eapply analyze_document_processing.
Qed.

Lemma analyze_document_twice_witness :
  analyze_document "job1" 1500
    (snd (upload_document docx_upload "job2" writable server_job1_processing))
  = (HTTPException 409 "Analysis already in progress.",
     snd (upload_document docx_upload "job2" writable server_job1_processing)).
Proof.
  refine (proj2 (proj2 (analyze_document_twice "job1" 1000
            (snd (upload_document text_upload "job1" writable initial_server))
            server_job1_processing
            (mkResponseBody "job1" processing
               "Analysis started. Check /results/{job_id} for updates.")
            eq_refl)
            (rtc_once _ _
               (fresh_upload text_upload "job1" writable initial_server eq_refl))
            (snd (upload_document docx_upload "job2" writable
                    server_job1_processing))
            (rtc_once _ _
               (fresh_upload docx_upload "job2" writable server_job1_processing
                  eq_refl)))
            _ 1500).
  apply list_elem_of_here.
Defined.

(** X14. An upload is accepted exactly when the file passes the type
    check, is at most 10 MiB (10485760 bytes) long, and its contents can
    be written to the upload directory. An upload that fails one of the
    two checks is answered with 400 and changes nothing. When the checks
    pass, the contents are written to [<upload dir>/<id><extension>]; if
    that write raises, the request ends in an internal error carrying
    what the write raised, and no record is created; otherwise a fresh
    [uploaded] record with empty results is stored under the new
    identifier, with that path. In no case is a background task scheduled
    or the record of another job touched. *)
Theorem upload_document_effect (file : UploadFile) (new_id : string)
    (write_bytes : string -> pyresult unit) (s : server) :
  let response := fst (upload_document file new_id write_bytes s) in
  let s' := snd (upload_document file new_id write_bytes s) in
  let stored_path := UPLOAD_DIR ++ "/" ++ new_id ++ stored_suffix file in
  background_tasks s' = background_tasks s /\
  (forall other, other <> new_id ->
     jobs_store s' !! other = jobs_store s !! other) /\
  match response with
  | Response200 body =>
      _validate_file_type file = true /\
      contents_length file <= 10485760 /\
      write_bytes stored_path = Ok tt /\
      response_job_id body = new_id /\
      response_status body = uploaded /\
      jobs_store s' !! new_id
      = Some (mkJob new_id (upload_filename file) stored_path uploaded []
                None None None 0 0 None)
  | HTTPException code _ =>
      code = 400 /\ s' = s /\
      (_validate_file_type file = false \/ 10485760 < contents_length file)
  | InternalServerError exc =>
      _validate_file_type file = true /\
      contents_length file <= 10485760 /\
      write_bytes stored_path = Raise exc /\
      s' = s
  end.
Proof.
  simpl. unfold upload_document, stored_suffix.
  destruct (_validate_file_type file) eqn:Hvalid; simpl; [|auto 6].
  unfold MAX_FILE_SIZE_BYTES.
  destruct (Z.ltb_spec (10 * 1024 * 1024) (contents_length file)); simpl.
  - split; [done|]. split; [done|]. split; [done|]. split; [done|]. right. lia.
  - destruct (write_bytes _) as [[]|exc] eqn:Hwrite; simpl.
    + split; [done|]. split; [intros other Hne; by rewrite lookup_insert_ne|].
      split; [done|]. split; [lia|]. split; [done|]. split; [done|].
      split; [done|]. by rewrite lookup_insert_eq.
    + split; [done|]. split; [done|]. split; [done|]. split; [lia|]. done.
Qed.

Lemma upload_document_effect_witness :
  jobs_store (snd (upload_document
                     (mkUploadFile "big.txt" (Some "text/plain") 10485760)
                     "job9" writable server_job1_partial)) !! "job1"
  = jobs_store server_job1_partial !! "job1".
Proof.
  apply (proj1 (proj2 (upload_document_effect
                         (mkUploadFile "big.txt" (Some "text/plain") 10485760)
                         "job9" writable server_job1_partial))).
  discriminate.
Defined.

(** The size limit is inclusive: a file of exactly 10 MiB is accepted and
    one more byte is refused. *)
Example upload_size_boundary :
  fst (upload_document (mkUploadFile "big.txt" (Some "text/plain") 10485760)
         "job9" writable initial_server)
  = Response200
      (mkResponseBody "job9" uploaded
         "Document uploaded successfully. Use /analyze to start processing.")
  /\ fst (upload_document (mkUploadFile "big.txt" (Some "text/plain") 10485761)
            "job9" writable initial_server)
     = HTTPException 400 "File exceeds 10MB limit.".
Proof. split; reflexivity. Qed.

(** A write that fails: the request ends in an internal error and the
    registry is as it was. *)
Example upload_write_fails :
  upload_document text_upload "job9" name_too_long server_job1_partial
  = (InternalServerError
       (mkException OSError "[Errno 36] File name too long"),
     server_job1_partial).
Proof. reflexivity. Qed.

(** ** Paths and extensions *)

Lemma rfind_app_None c a b :
  rfind c b = None -> rfind c (a ++ b) = rfind c a.
Proof. intros Hb. induction a as [|x a IH]; simpl; [done|]. by rewrite IH. Qed.

Lemma rfind_app_Some c a b i :
  rfind c b = Some i -> rfind c (a ++ b) = Some (String.length a + i)%nat.
Proof. intros Hb. induction a as [|x a IH]; simpl; [done|]. by rewrite IH. Qed.

Lemma rfind_app_None_inv c a b :
  rfind c (a ++ b) = None -> rfind c a = None /\ rfind c b = None.
Proof.
  destruct (rfind c b) as [i|] eqn:Hb.
  - by rewrite (rfind_app_Some c a b i Hb).
  - by rewrite (rfind_app_None c a b Hb).
Qed.

Lemma rfind_Some_split c s i :
  rfind c s = Some i ->
  exists a rest,
    s = a ++ String c rest /\ String.length a = i /\ rfind c rest = None.
Proof.
  revert i. induction s as [|x s IH]; intros i; simpl; [done|].
  destruct (rfind c s) as [k|] eqn:Hs.
  - intros [= <-]. destruct (IH k eq_refl) as (a & rest & -> & <- & Hrest).
    by exists (String x a), rest.
  - destruct (Ascii.eqb_spec x c) as [->|]; [|done].
    intros [= <-]. by exists EmptyString, s.
Qed.

Lemma substring_app_skip a b k n :
  substring (String.length a + k) n (a ++ b) = substring k n b.
Proof. induction a as [|x a IH]; simpl; done. Qed.

Lemma substring_whole s : substring 0 (String.length s) s = s.
Proof. induction s as [|x s IH]; simpl; [done|]. by rewrite IH. Qed.

Lemma length_app a b :
  String.length (a ++ b) = (String.length a + String.length b)%nat.
Proof. induction a as [|x a IH]; simpl; [done|]. by rewrite IH. Qed.

Lemma append_assoc a b c : ((a ++ b) ++ c = a ++ (b ++ c))%string.
Proof.
  induction a as [|x a IH]; [done|].
  change (String x ((a ++ b) ++ c) = String x (a ++ (b ++ c))). by rewrite IH.
Qed.

Lemma rfind_cons_None c x s :
  rfind c (String x s) = None <-> x <> c /\ rfind c s = None.
Proof.
  simpl. destruct (rfind c s); [split; [done|by intros [_ ?]]|].
  destruct (Ascii.eqb_spec x c); split; try done. by intros [? _].
Qed.

(** *** How pathlib parses a path *)

Lemma split_slash_nonempty path : split_slash path <> [].
Proof.
  destruct path as [|c rest]; simpl; [done|].
  destruct (Ascii.eqb c "/"); [done|]. by destruct (split_slash rest).
Qed.

Lemma split_slash_free s : free_of "/" s -> split_slash s = [s].
Proof.
  unfold free_of. induction s as [|c s IH]; [done|].
  intros Hfree. apply rfind_cons_None in Hfree as [Hc Hs].
  simpl. destruct (Ascii.eqb_spec c "/"); [done|]. by rewrite IH.
Qed.

Lemma split_slash_parts_free path : Forall (free_of "/") (split_slash path).
Proof.
  induction path as [|c rest IH]; simpl.
  - by apply Forall_singleton.
  - destruct (Ascii.eqb_spec c "/") as [->|Hc].
    + by apply Forall_cons.
    + destruct (split_slash rest) as [|first others].
      * apply Forall_singleton. by apply rfind_cons_None.
      * apply Forall_cons in IH as [Hfirst Hothers].
        apply Forall_cons. split; [|done]. by apply rfind_cons_None.
Qed.

Lemma split_slash_app a b :
  split_slash (a ++ String "/" b) = (split_slash a ++ split_slash b)%list.
Proof.
  induction a as [|c a IH]; simpl; [done|].
  destruct (Ascii.eqb c "/"); rewrite IH; [done|].
  pose proof (split_slash_nonempty a). by destruct (split_slash a).
Qed.

Lemma kept_component_long s :
  (2 <= String.length s)%nat -> kept_component s = true.
Proof.
  destruct s as [|a [|b s]]; simpl; try lia. intros _.
  unfold kept_component. simpl. by destruct (Ascii.eqb a ".").
Qed.

(** The name of a path without slashes is the path itself, unless that
    is a single dot. *)
Lemma path_name_free name :
  free_of "/" name ->
  path_name name = if kept_component name then name else EmptyString.
Proof.
  intros Hfree. unfold path_name, path_parts.
  rewrite split_slash_free by done. simpl. by destruct (kept_component name).
Qed.

Lemma path_name_after_slash dir name :
  free_of "/" name -> kept_component name = true ->
  path_name (dir ++ String "/" name) = name.
Proof.
  intros Hfree Hkept. unfold path_name, path_parts.
  rewrite split_slash_app, List.filter_app, (split_slash_free name) by done.
  simpl. rewrite Hkept. apply last_last.
Qed.

(** The name of a path is empty, or one of the components pathlib
    keeps. *)
Lemma path_name_cases path :
  path_name path = EmptyString \/
  (kept_component (path_name path) = true /\ free_of "/" (path_name path)).
Proof.
  unfold path_name, path_parts.
  destruct (List.filter kept_component (split_slash path)) as [|x l] eqn:Hparts;
    [by left|].
  right.
  destruct (exists_last (l := x :: l)) as (front & name & Hlast); [done|].
  rewrite Hlast, last_last.
  assert (Hin : In name (List.filter kept_component (split_slash path))).
  { rewrite Hparts, Hlast. apply in_or_app. right. by left. }
  apply List.filter_In in Hin as [Hin Hkept]. split; [done|].
  pose proof (split_slash_parts_free path) as Hfree.
  rewrite Forall_forall in Hfree. apply Hfree. by apply list_elem_of_In.
Qed.

Lemma path_name_no_slash path : free_of "/" (path_name path).
Proof. by destruct (path_name_cases path) as [-> | [_ ?]]. Qed.

Lemma path_name_idempotent path : path_name (path_name path) = path_name path.
Proof.
  destruct (path_name_cases path) as [-> | [Hkept Hfree]]; [done|].
  by rewrite path_name_free, Hkept.
Qed.

Lemma path_suffix_of_path_name path : path_suffix (path_name path) = path_suffix path.
Proof. unfold path_suffix. by rewrite path_name_idempotent. Qed.

(** The suffix of a name made of a stem, a dot and an extension without
    dots. *)
Lemma path_suffix_of_name stem ext :
  free_of "/" stem -> free_of "/" ext -> free_of "." ext ->
  path_suffix (stem ++ String "." ext)
  = if String.eqb stem EmptyString || String.eqb ext EmptyString
    then EmptyString else String "." ext.
Proof.
  unfold free_of. intros Hstem Hslash Hdot. unfold path_suffix.
  assert (Hnoslash : free_of "/" (stem ++ String "." ext)).
  { unfold free_of. rewrite rfind_app_None; [done|]. simpl. by rewrite Hslash. }
  rewrite (path_name_free _ Hnoslash).
  assert (Hfind : rfind "." (stem ++ String "." ext) = Some (String.length stem)).
  { rewrite (rfind_app_Some "." stem (String "." ext) 0)
      by (simpl; by rewrite Hdot).
    by rewrite Nat.add_0_r. }
  destruct (String.eqb_spec stem EmptyString) as [->|Hs].
  { cbn [orb]. destruct (kept_component _); [|done].
    simpl in Hfind |- *. by rewrite Hfind. }
  assert (Hstem_length : (0 < String.length stem)%nat).
  { destruct stem; [done|]. simpl. lia. }
  rewrite kept_component_long by (rewrite length_app; simpl; lia).
  rewrite Hfind, length_app. cbn [String.length].
  destruct (String.eqb_spec ext EmptyString) as [->|He]; cbn [orb].
  - cbn [String.length].
    destruct (Nat.ltb_spec (String.length stem) (String.length stem + 1 - 1));
      [lia|]. by rewrite andb_false_r.
  - assert (Hext_length : (0 < String.length ext)%nat).
    { destruct ext; [done|]. simpl. lia. }
    destruct (Nat.ltb_spec 0 (String.length stem)); [|lia].
    destruct (Nat.ltb_spec (String.length stem)
                (String.length stem + S (String.length ext) - 1)); [|lia].
    cbn [andb].
    replace (String.length stem + S (String.length ext) - String.length stem)%nat
      with (String.length (String "." ext)) by (cbn [String.length]; lia).
    pose proof (substring_app_skip stem (String "." ext) 0
                  (String.length (String "." ext))) as Hsub.
    rewrite Nat.add_0_r in Hsub. rewrite Hsub. apply substring_whole.
Qed.

(** A suffix is empty, or a dot followed by an extension that contains
    neither a dot nor a slash. *)
Lemma path_suffix_shape path :
  path_suffix path = EmptyString \/
  exists stem ext,
    path_name path = stem ++ String "." ext /\
    stem <> EmptyString /\ ext <> EmptyString /\
    free_of "." ext /\ free_of "/" ext /\
    path_suffix path = String "." ext.
Proof.
  pose proof (path_name_no_slash path) as Hname.
  rewrite <- path_suffix_of_path_name.
  destruct (rfind "." (path_name path)) as [i|] eqn:Hdot.
  2: { left. unfold path_suffix. by rewrite path_name_idempotent, Hdot. }
  destruct (rfind_Some_split _ _ _ Hdot) as (stem & ext & Heq & <- & Hext).
  unfold free_of in Hname. rewrite Heq in Hname |- *.
  apply rfind_app_None_inv in Hname as [Hstem Hslash].
  assert (Hextslash : rfind "/" ext = None).
  { simpl in Hslash. by destruct (rfind "/" ext). }
  rewrite (path_suffix_of_name stem ext Hstem Hextslash Hext).
  destruct (String.eqb_spec stem EmptyString) as [->|Hs]; [by left|].
  destruct (String.eqb_spec ext EmptyString) as [->|He]; [by left|].
  right. by exists stem, ext.
Qed.

(** pathlib drops a trailing slash and a trailing dot component before
    it takes the name. *)
Example path_name_trailing_slash :
  path_name "report.pdf/" = "report.pdf" /\
  path_suffix "report.pdf/" = ".pdf" /\
  path_name "docs/Notes.TXT" = "Notes.TXT" /\
  path_name "docs//notes.txt/." = "notes.txt" /\
  path_suffix ".txt" = EmptyString.
Proof. by vm_compute. Qed.
Lemma stored_suffix_shape file :
  exists ext,
    stored_suffix file = String "." ext /\
    ext <> EmptyString /\ free_of "." ext /\ free_of "/" ext.
Proof.
  unfold stored_suffix.
  destruct (path_suffix_shape (upload_filename file))
    as [Hnone|(stem & ext & _ & _ & Hext & Hdot & Hslash & Hsome)].
  - rewrite Hnone. simpl. unfold _guess_extension.
    destruct (content_type file) as [t|]; [destruct (String.eqb t _)|].
    + by exists "pdf".
    + by exists "txt".
    + by exists "txt".
  - rewrite Hsome. simpl. by exists ext.
Qed.

Lemma path_suffix_stored dir id ext :
  id <> EmptyString -> free_of "." id -> free_of "/" id ->
  ext <> EmptyString -> free_of "." ext -> free_of "/" ext ->
  path_suffix (dir ++ "/" ++ id ++ String "." ext) = String "." ext.
Proof.
  intros Hid Hiddot Hidslash Hext Hextdot Hextslash.
  rewrite <- path_suffix_of_path_name.
  change (dir ++ "/" ++ id ++ String "." ext)
    with (dir ++ String "/" (id ++ String "." ext)).
  rewrite path_name_after_slash.
  - rewrite path_suffix_of_name by done.
    destruct (String.eqb_spec id EmptyString); [done|].
    by destruct (String.eqb_spec ext EmptyString).
  - unfold free_of in *. rewrite rfind_app_None; [done|].
    simpl. by rewrite Hextslash.
  - apply kept_component_long. rewrite length_app. simpl.
    destruct id; [done|]. simpl. lia.
Qed.

Lemma accepted_upload_record file new_id write_bytes s s' body :
  upload_document file new_id write_bytes s = (Response200 body, s') ->
  new_id <> EmptyString -> free_of "." new_id -> free_of "/" new_id ->
  exists j,
    jobs_store s' !! new_id = Some j /\
    filename j = upload_filename file /\
    status j = uploaded /\
    filepath j = UPLOAD_DIR ++ "/" ++ new_id ++ stored_suffix file /\
    stored_suffix file <> EmptyString /\
    path_suffix (filepath j) = stored_suffix file.
Proof.
  intros Hupload Hid Hdot Hslash.
  destruct (stored_suffix_shape file) as (ext & Hshape & Hext & Hextdot & Hextslash).
  unfold upload_document in Hupload.
  destruct (negb (_validate_file_type file)); [done|].
  destruct (MAX_FILE_SIZE_BYTES <? contents_length file); [done|].
  destruct (write_bytes _); [|done].
  injection Hupload as _ <-. simpl. rewrite lookup_insert_eq.
  eexists. split; [reflexivity|]. simpl.
  fold (stored_suffix file). rewrite Hshape.
  split; [done|]. split; [done|]. split; [done|]. split; [done|].
  by apply path_suffix_stored.
Qed.

(** X15. An accepted upload is stored under the upload directory as the
    new identifier followed by an extension: that of the client's file
    name or, when the name has none, [.pdf] or [.txt] guessed from the
    content type. The extension is never empty, and it is what the parser
    later reads back as the suffix of the stored path (for an identifier
    without dots and slashes, as [uuid4().hex] is). *)
Theorem stored_path_keeps_extension (file : UploadFile) (new_id : string)
    (write_bytes : string -> pyresult unit) (s s' : server)
    (body : response_body) :
  upload_document file new_id write_bytes s = (Response200 body, s') ->
  new_id <> EmptyString -> free_of "." new_id -> free_of "/" new_id ->
  exists j,
    jobs_store s' !! new_id = Some j /\
    filepath j = UPLOAD_DIR ++ "/" ++ new_id ++ stored_suffix file /\
    stored_suffix file <> EmptyString /\
    path_suffix (filepath j) = stored_suffix file.
Proof.
  intros Hupload Hid Hdot Hslash.
  destruct (accepted_upload_record file new_id write_bytes s s' body
              Hupload Hid Hdot Hslash)
    as (j & Hj & _ & _ & Hpath & Hne & Hsuffix).
  by exists j.
Qed.

Lemma stored_path_keeps_extension_witness :
  exists j,
    jobs_store (snd (upload_document docx_upload "job2" writable initial_server)) !! "job2"
    = Some j /\
    filepath j = "uploads/job2.docx" /\
    path_suffix (filepath j) = ".docx".
Proof.
  destruct (stored_path_keeps_extension docx_upload "job2" writable
              initial_server _ _ eq_refl)
    as (j & Hj & Hpath & _ & Hsuffix); try done.
  exists j. auto.
Defined.

Lemma lower_char_dot c : lower_char c = "."%char -> c = "."%char.
Proof.
  destruct c as [[] [] [] [] [] [] [] []]; vm_compute; congruence.
Qed.

Lemma lower_char_keeps_dot_and_slash c :
  c = "."%char \/ c = "/"%char -> lower_char c = c.
Proof. by intros [-> | ->]. Qed.

Lemma substring_tail s k e :
  (k + String.length e = String.length s)%nat ->
  substring k (String.length e) s = e ->
  exists stem, s = stem ++ e.
Proof.
  revert s. induction k as [|k IH]; intros s Hlen Hsub.
  - simpl in Hlen. rewrite Hlen, substring_whole in Hsub. subst.
    by exists EmptyString.
  - destruct s as [|x s]; [simpl in Hlen; lia|]. simpl in Hlen, Hsub.
    destruct (IH s) as (stem & ->); [lia|done|]. by exists (String x stem).
Qed.

Lemma endswith_split s ending :
  endswith s ending = true -> exists stem, s = stem ++ ending.
Proof.
  unfold endswith. intros Hends. apply andb_true_iff in Hends as [Hle Heq].
  apply Nat.leb_le in Hle. apply String.eqb_eq in Heq.
  apply (substring_tail s (String.length s - String.length ending)); [lia|done].
Qed.

Lemma lower_app_inv s a b :
  lower s = a ++ b ->
  exists a0 b0, s = a0 ++ b0 /\ lower a0 = a /\ lower b0 = b.
Proof.
  revert s. induction a as [|x a IH]; intros s Hs.
  - by exists EmptyString, s.
  - destruct s as [|y s]; [done|]. simpl in Hs. injection Hs as Hx Hs.
    destruct (IH s Hs) as (a0 & b0 & -> & <- & <-).
    exists (String y a0), b0. simpl. by rewrite Hx.
Qed.

(** A string that lowers to three given characters, none of them a dot or
    a slash, contains neither. *)
Lemma lowers_to_extension tail c1 c2 c3 :
  lower tail = String c1 (String c2 (String c3 EmptyString)) ->
  lower_char "." <> c1 -> lower_char "." <> c2 -> lower_char "." <> c3 ->
  lower_char "/" <> c1 -> lower_char "/" <> c2 -> lower_char "/" <> c3 ->
  tail <> EmptyString /\ free_of "." tail /\ free_of "/" tail.
Proof.
  destruct tail as [|x1 [|x2 [|x3 [|]]]]; try done. simpl.
  intros [= <- <- <-] H1 H2 H3 H4 H5 H6. unfold free_of. simpl.
  split; [done|]. split.
  - destruct (Ascii.eqb_spec x3 "."), (Ascii.eqb_spec x2 "."),
      (Ascii.eqb_spec x1 "."); subst; done.
  - destruct (Ascii.eqb_spec x3 "/"), (Ascii.eqb_spec x2 "/"),
      (Ascii.eqb_spec x1 "/"); subst; done.
Qed.

(** A file name that ends, in any mix of cases, with a dot and a
    three-letter extension has that extension as its suffix, or no suffix
    at all when its last component consists of the extension alone. *)
Lemma suffix_of_name_ending name c1 c2 c3 :
  endswith (lower name) (String "." (String c1 (String c2 (String c3 EmptyString))))
  = true ->
  lower_char "." <> c1 -> lower_char "." <> c2 -> lower_char "." <> c3 ->
  lower_char "/" <> c1 -> lower_char "/" <> c2 -> lower_char "/" <> c3 ->
  path_suffix name = EmptyString \/
  lower (path_suffix name)
  = String "." (String c1 (String c2 (String c3 EmptyString))).
Proof.
  intros Hends H1 H2 H3 H4 H5 H6.
  apply endswith_split in Hends as (stem & Hlower).
  apply lower_app_inv in Hlower as (stem0 & tail0 & -> & _ & Htail).
  destruct tail0 as [|dot tail]; [done|]. simpl in Htail.
  injection Htail as Hdot Htail. apply lower_char_dot in Hdot as ->.
  destruct (lowers_to_extension tail c1 c2 c3 Htail H1 H2 H3 H4 H5 H6)
    as (Hne & Hnodot & Hnoslash).
  assert (Hlast : exists base,
            free_of "/" base /\
            path_suffix (stem0 ++ String "." tail)
            = path_suffix (base ++ String "." tail)).
  { destruct (rfind "/" stem0) as [i|] eqn:Hslash; [|by exists stem0].
    destruct (rfind_Some_split _ _ _ Hslash) as (dir & base & -> & _ & Hbase).
    exists base. split; [done|].
    rewrite append_assoc.
    change (String "/" base ++ String "." tail)
      with (String "/" (base ++ String "." tail)).
    rewrite <- (path_suffix_of_path_name (dir ++ _)).
    rewrite path_name_after_slash; [done| |].
    - unfold free_of in *. rewrite rfind_app_None; [done|].
      simpl. by rewrite Hnoslash.
    - apply kept_component_long. rewrite length_app. simpl.
      destruct tail; [done|]. simpl. lia. }
  destruct Hlast as (base & Hbase & ->).
  rewrite path_suffix_of_name by done.
  destruct (String.eqb_spec base EmptyString); [by left|].
  destruct (String.eqb_spec tail EmptyString); [done|].
  right. simpl. by rewrite Htail.
Qed.

(** X16. An upload that is accepted on the strength of its file name
    alone, its content type being none of the two allowed ones, is stored
    under an extension that is [.txt] or [.pdf] up to case, whatever the
    file name is otherwise (it may name directories). The parser therefore
    never refuses it as unsupported: once the stored file exists,
    extraction is whatever reading it as text, or as a PDF, gives. The
    identifier is assumed to be non-empty and without dots and slashes, as
    [uuid4().hex] is. *)
Theorem upload_accepted_by_name_is_supported (file : UploadFile)
    (new_id : string) (write_bytes : string -> pyresult unit)
    (s s' : server) (body : response_body) :
  upload_document file new_id write_bytes s = (Response200 body, s') ->
  content_type_allowed file = false ->
  new_id <> EmptyString -> free_of "." new_id -> free_of "/" new_id ->
  exists j,
    jobs_store s' !! new_id = Some j /\
    (lower (path_suffix (filepath j)) = ".txt" \/
     lower (path_suffix (filepath j)) = ".pdf") /\
    forall fs stored, fs (filepath j) = Some stored ->
      extract_text fs (filepath j) = read_text stored \/
      extract_text fs (filepath j) = _extract_pdf_text stored.
Proof.
  intros Hupload Htype Hid Hdot Hslash.
  destruct (accepted_upload_record file new_id write_bytes s s' body
              Hupload Hid Hdot Hslash)
    as (j & Hj & _ & _ & _ & _ & Hsuffix).
  exists j. split; [done|].
  assert (Hsupported : lower (stored_suffix file) = ".txt" \/
                       lower (stored_suffix file) = ".pdf").
  { unfold upload_document in Hupload.
    destruct (_validate_file_type file) eqn:Hvalid; [|done].
    unfold _validate_file_type in Hvalid. fold (content_type_allowed file) in Hvalid.
    rewrite Htype in Hvalid. simpl in Hvalid.
    apply negb_true_iff, negb_false_iff, orb_true_iff in Hvalid.
    assert (Hguess : _guess_extension (content_type file) = ".txt").
    { unfold content_type_allowed in Htype. unfold _guess_extension.
      destruct (content_type file) as [t|]; [|done].
      apply orb_false_iff in Htype as [-> _]. done. }
    unfold stored_suffix.
    destruct Hvalid as [Hpdf|Htxt].
    - destruct (suffix_of_name_ending (upload_filename file) "p" "d" "f" Hpdf)
        as [Hnone|Hsome]; try done.
      + rewrite Hnone. simpl. rewrite Hguess. by left.
      + destruct (String.eqb_spec (path_suffix (upload_filename file)) EmptyString)
          as [Hempty|_]; [by rewrite Hempty in Hsome|]. by right.
    - destruct (suffix_of_name_ending (upload_filename file) "t" "x" "t" Htxt)
        as [Hnone|Hsome]; try done.
      + rewrite Hnone. simpl. rewrite Hguess. by left.
      + destruct (String.eqb_spec (path_suffix (upload_filename file)) EmptyString)
          as [Hempty|_]; [by rewrite Hempty in Hsome|]. by left. }
  rewrite Hsuffix. split; [done|].
  intros fs stored Hstored. unfold extract_text. rewrite Hstored, Hsuffix.
  destruct Hsupported as [-> | ->]; simpl; auto.
Qed.

Lemma upload_accepted_by_name_is_supported_witness :
  exists j,
    jobs_store (snd (upload_document
                       (mkUploadFile "docs/Notes.TXT"
                          (Some "application/octet-stream") 12)
                       "job5" writable initial_server)) !! "job5" = Some j /\
    lower (path_suffix (filepath j)) = ".txt".
Proof.
  destruct (upload_accepted_by_name_is_supported
              (mkUploadFile "docs/Notes.TXT" (Some "application/octet-stream") 12)
              "job5" writable initial_server _ _ eq_refl)
    as (j & Hj & Hsuffix & _); try done.
  exists j. split; [exact Hj|].
  vm_compute in Hj. injection Hj as <-. reflexivity.
Defined.

(** ** From upload to results *)

(** X17. Upload, trigger, run, composed. Take an accepted upload whose
    stored extension is [.txt] up to case, trigger its analysis, and let
    its task run while the stored file reads as some text, no agent
    raises outside [Exception], and every succeeding agent hands back a
    payload the merge accepts. Then the trigger is answered with 200 and
    schedules the job, and the run leaves the job [completed] or
    [partial], under the client's file name, with one result per agent and
    as many failures counted as agents failed on that text. The
    identifier is assumed to be non-empty and without dots and slashes, as
    [uuid4().hex] is. *)
Theorem text_upload_runs_to_results (file : UploadFile) (new_id : string)
    (write_bytes : string -> pyresult unit)
    (s s1 : server) (body : response_body) (started finished : Z)
    (fs : filesystem) (stored : stored_file) (text : string)
    (orchestrator : AnalysisOrchestrator) (picks : list nat) :
  upload_document file new_id write_bytes s = (Response200 body, s1) ->
  new_id <> EmptyString -> free_of "." new_id -> free_of "/" new_id ->
  lower (stored_suffix file) = ".txt" ->
  fs (UPLOAD_DIR ++ "/" ++ new_id ++ stored_suffix file) = Some stored ->
  read_text stored = Ok text ->
  none_escapes orchestrator text ->
  (forall name fn p, (name, fn) ∈ configured_agents orchestrator ->
     awaited (fn text) = Ok p -> record_like p = true) ->
  let triggered := analyze_document new_id started s1 in
  let ran :=
    _process_job fs orchestrator picks finished new_id
      (jobs_store (snd triggered)) in
  (exists accepted, fst triggered = Response200 accepted) /\
  new_id ∈ background_tasks (snd triggered) /\
  snd ran = [ CalledExtractText (UPLOAD_DIR ++ "/" ++ new_id ++ stored_suffix file);
              CalledOrchestratorRun text ] /\
  exists j,
    fst ran !! new_id = Some j /\
    filename j = upload_filename file /\
    (status j = completed \/ status j = partial) /\
    keys (results j) = ["summary"; "entities"; "sentiment"] /\
    agents_failed j = Z.of_nat (length (failing_agents orchestrator text)) /\
    agents_completed j + agents_failed j = 3.
Proof.
  intros Hupload Hid Hdot Hslash Htxt Hstored Hread Hnone Hpayloads triggered ran.
  destruct (accepted_upload_record file new_id write_bytes s s1 body
              Hupload Hid Hdot Hslash)
    as (j0 & Hj0 & Hname & Hstatus & Hpath & _ & Hsuffix).
  assert (Htriggered :
            triggered
            = (Response200
                 (mkResponseBody new_id processing
                    "Analysis started. Check /results/{job_id} for updates."),
               mkServer
                 (<[new_id := mkJob (job_id j0) (filename j0) (filepath j0)
                                processing [] (Some started)
                                (analysis_finished_at j0) None 0 0 None]>
                    (jobs_store s1))
                 (background_tasks s1 ++ [new_id])%list)).
  { subst triggered. unfold analyze_document. by rewrite Hj0, Hstatus. }
  subst ran. rewrite Htriggered. simpl.
  split; [by eexists|].
  split; [apply elem_of_app; right; apply list_elem_of_here|].
  destruct (run_returns orchestrator picks text Hnone Hpayloads)
    as (structured & outcomes & Hrun).
  assert (Hextract : extract_text fs (filepath j0) = Ok text).
  { unfold extract_text. by rewrite Hpath, Hstored, <- Hpath, Hsuffix, Htxt. }
  rewrite (process_job_orchestrated fs orchestrator picks finished new_id _
             (mkJob (job_id j0) (filename j0) (filepath j0) processing []
                (Some started) (analysis_finished_at j0) None 0 0 None)
             text structured outcomes);
    [|apply lookup_insert_eq|done|done].
  simpl. rewrite Hpath. split; [done|].
  rewrite lookup_insert_eq. eexists. split; [reflexivity|]. simpl.
  split; [done|].
  rewrite filter_success_length, (run_successes _ _ _ _ _ Hrun).
  rewrite failing_agents_length.
  destruct (run_completed_count _ _ _ _ _ Hrun) as [Hlen _].
  rewrite Hlen. change (Z.of_nat 3) with 3.
  split; [by destruct (_ =? 0); auto|].
  split; [by apply run_Ok_inv in Hrun as (e1 & e2 & e3 & _ & _ & _ & -> & _)|].
  split; lia.
Qed.

Lemma text_upload_runs_to_results_witness :
  exists j,
    fst (_process_job disk degraded_orchestrator sentiment_first 2000 "job1"
           (jobs_store server_job1_processing)) !! "job1" = Some j /\
    filename j = "report.txt" /\
    agents_failed j = 1.
Proof.
  destruct (text_upload_runs_to_results text_upload "job1" writable
              initial_server _ _
              1000 2000 disk
              (mkStoredFile (Ok "Acme Corp reported record growth.")
                 (Raise (mkException OtherException "not a PDF")))
              "Acme Corp reported record growth."
              degraded_orchestrator sentiment_first
              eq_refl)
    as (_ & _ & _ & j & Hj & Hname & _ & _ & Hfailed & _); try done.
  - intros name fn Hin.
    apply configured_agents_cases in Hin as [[-> ->]|[[-> ->]|[-> ->]]];
      reflexivity.
  - intros name fn p Hin.
    apply configured_agents_cases in Hin as [[-> ->]|[[-> ->]|[-> ->]]];
      simpl; intros [= <-]; reflexivity.
  - exists j. auto.
Defined.

(** ** Reading results *)

(** X18. What [/results] shows in any reachable state: 404 exactly for an
    identifier without a record; otherwise the status of the job under the
    requested identifier, with default results exactly while the job is
    [uploaded] or [processing] and the three agents' results afterwards,
    and with a warning exactly when the job is [partial] or [failed]. *)
Theorem fetch_results_shows (s : server) (id : string) :
  reachable s ->
  (jobs_store s !! id = None <->
   Api.fetch_results id s = HTTPException 404 "Unknown job_id.") /\
  forall r, Api.fetch_results id s = Response200 r ->
    Api.job_id r = id /\
    (exists j, jobs_store s !! id = Some j /\ Api.status r = status j) /\
    (Api.results r = Api.Defaults <->
     Api.status r = uploaded \/ Api.status r = processing) /\
    (forall mapping, Api.results r = Api.FromMapping mapping ->
       keys mapping = ["summary"; "entities"; "sentiment"]) /\
    (Api.warning r <> None <->
     Api.status r = partial \/ Api.status r = failed).
Proof.
  intros Hs. unfold Api.fetch_results.
  destruct (jobs_store s !! id) as [j|] eqn:Hj; [|done].
  split; [done|]. intros r [= <-]. simpl.
  destruct (reachable_well_formed s Hs id j Hj) as (Hwarning & Hempty & Hfull).
  split; [done|]. split; [by exists j|].
  assert (Hcases : (terminal (status j) = false /\ results j = []) \/
                   (terminal (status j) = true /\
                    exists slot slots,
                      results j = slot :: slots /\
                      keys (slot :: slots) = ["summary"; "entities"; "sentiment"])).
  { destruct (terminal (status j)) eqn:Hterminal; [right|left; auto].
    split; [done|]. specialize (Hfull eq_refl).
    destruct (results j) as [|slot slots]; [done|]. by exists slot, slots. }
  destruct Hcases as [[Hterminal ->]|[Hterminal (slot & slots & -> & Hkeys)]].
  - split; [|done]. split; [|done]. intros _.
    destruct (status j); simpl in Hterminal; auto; done.
  - split; [|split; [by intros mapping [= <-]|done]].
    split; [done|]. intros [Hu|Hp]; rewrite ?Hu, ?Hp in Hterminal; done.
Qed.

Lemma fetch_results_shows_witness :
  Api.fetch_results "job7" server_job1_partial
  = HTTPException 404 "Unknown job_id.".
Proof.
  apply (proj1 (fetch_results_shows server_job1_partial "job7"
                  server_job1_partial_reachable)).
  by vm_compute.
Defined.

(** X19. As long as identifiers are not reused, polling a [completed] or
    [partial] job gives the same response for good: whatever requests and
    tasks come in between, [/results] answers exactly as it did. *)
Theorem polling_finished_job_is_stable (s s' : server) (id : string)
    (r : Api.ResultsResponse) :
  fresh_reachable s ->
  rtc fresh_step s s' ->
  Api.fetch_results id s = Response200 r ->
  Api.status r = completed \/ Api.status r = partial ->
  Api.fetch_results id s' = Response200 r.
Proof.
  intros Hs Hsteps Hfetch Hstatus. unfold Api.fetch_results in *.
  destruct (jobs_store s !! id) as [j|] eqn:Hj; [|done].
  injection Hfetch as <-. simpl in Hstatus.
  pose proof (fresh_reachable_orderly s Hs) as Horderly.
  assert (Hnotqueued : id ∉ background_tasks s).
  { intros Hin.
    destruct (proj2 (proj1 Horderly) id Hin) as (j0 & Hj0 & Hprocessing).
    rewrite Hj in Hj0. injection Hj0 as <-. destruct Hstatus; congruence. }
  destruct (fresh_steps_settled s s' id j Horderly Hsteps Hj Hnotqueued)
    as [Hj' _]; [destruct Hstatus; auto|].
  by rewrite Hj'.
Qed.

Lemma polling_finished_job_is_stable_witness :
  Api.fetch_results "job1"
    (snd (upload_document docx_upload "job2" writable server_job1_completed))
  = Api.fetch_results "job1" server_job1_completed.
Proof.
  destruct (Api.fetch_results "job1" server_job1_completed)
    as [r|code detail|exc] eqn:Hfetch;
    [|discriminate Hfetch|discriminate Hfetch].
  apply (polling_finished_job_is_stable server_job1_completed _ "job1" r
           server_job1_completed_fresh).
  - apply rtc_once.
    exact (fresh_upload docx_upload "job2" writable server_job1_completed eq_refl).
  - exact Hfetch.
  - left. vm_compute in Hfetch. by injection Hfetch as <-.
Defined.

(** ** Payload objects after the merge *)

(** X20. The merge writes the timing field into the payload object
    itself when that payload is a non-empty dict: after the run, the
    payload of the outcome and the merged entry are one and the same
    value, timing field included. Any other payload (a dataclass instance,
    an empty dict, [None]) is still in the outcome exactly as the agent
    returned it. *)
Theorem dict_payload_is_shared (self : AnalysisOrchestrator) (picks : list nat)
    (text : string) (structured : dict pyval) (outcomes : dict AgentOutcome)
    (name : string) (fn : AgentCallable) (p : pyval) :
  run self picks text = Ok (structured, outcomes) ->
  (name, fn) ∈ configured_agents self ->
  awaited (fn text) = Ok p ->
  exists outcome entry,
    dict_get name outcomes = Some outcome /\
    dict_get name structured = Some entry /\
    match p with
    | PyDict (_ :: _) =>
        payload outcome = entry /\
        slot_time entry = Some (processing_time_seconds outcome)
    | _ => payload outcome = p
    end.
Proof.
  intros Hrun Hin Hp.
  apply run_Ok_inv in Hrun as (e1 & e2 & e3 & H1 & H2 & H3 & -> & ->).
  assert (Hone : forall agent entry,
            structured_entry (recorded_outcome agent fn text) = Ok entry ->
            match p with
            | PyDict (_ :: _) =>
                payload (after_merge (recorded_outcome agent fn text)) = entry /\
                slot_time entry
                = Some (processing_time_seconds (after_merge (recorded_outcome agent fn text)))
            | _ => payload (after_merge (recorded_outcome agent fn text)) = p
            end).
  { intros agent entry. unfold structured_entry, after_merge, recorded_outcome.
    rewrite Hp. simpl.
    destruct p as [| | | | | |[|first others]|]; simpl; try done.
    intros [= <-]. split; [done|]. simpl.
    destruct first as [k v]. simpl.
    destruct (String.eqb k "processing_time_seconds") eqn:Hk; simpl.
    - by rewrite Hk.
    - rewrite Hk. by rewrite dict_get_set_eq. }
  apply configured_agents_cases in Hin as [[-> ->]|[[-> ->]|[-> ->]]].
  - eexists _, _. split; [reflexivity|]. split; [reflexivity|]. by apply Hone.
  - eexists _, _. split; [reflexivity|]. split; [reflexivity|]. by apply Hone.
  - eexists _, _. split; [reflexivity|]. split; [reflexivity|]. by apply Hone.
Qed.

Lemma dict_payload_is_shared_witness :
  let sharing :=
    mkAnalysisOrchestrator
      (returning (PyDict [("text", PyStr "Acme grew.")]) 400400)
      (returning entities_result 200100)
      (returning sentiment_result 300200) in
  exists structured outcomes outcome,
    run sharing [] "doc" = Ok (structured, outcomes) /\
    dict_get "summary" outcomes = Some outcome /\
    payload outcome
    = PyDict [ ("text", PyStr "Acme grew.");
               ("processing_time_seconds", PyFloat 400000) ].
Proof.
  simpl.
  destruct (run (mkAnalysisOrchestrator
                   (returning (PyDict [("text", PyStr "Acme grew.")]) 400400)
                   (returning entities_result 200100)
                   (returning sentiment_result 300200)) [] "doc")
    as [[structured outcomes]|] eqn:Hrun; [|discriminate Hrun].
  destruct (dict_payload_is_shared _ _ _ _ _ "summary"
              (returning (PyDict [("text", PyStr "Acme grew.")]) 400400)
              (PyDict [("text", PyStr "Acme grew.")]) Hrun)
    as (outcome & entry & Houtcome & Hentry & Hshared & _).
  { apply list_elem_of_here. }
  { reflexivity. }
  exists structured, outcomes, outcome. split; [reflexivity|].
  split; [exact Houtcome|]. rewrite Hshared.
  vm_compute in Hrun. injection Hrun as <- <-.
  simpl in Hentry. by injection Hentry as <-.
Defined.

(** ** An agent that raises outside [Exception] *)

(** As soon as one agent raises outside [Exception], the run raises
    outside [Exception] too: what one of the agents raised. *)
Lemma run_escapes self picks text name fn exc :
  (name, fn) ∈ configured_agents self ->
  awaited (fn text) = Raise exc ->
  is_Exception exc = false ->
  exists escaped name' fn',
    run self picks text = Raise escaped /\
    is_Exception escaped = false /\
    (name', fn') ∈ configured_agents self /\
    awaited (fn' text) = Raise escaped.
Proof.
  intros Hin Hraise Hclass.
  assert (Hescapes : escapes (fn text) = true).
  { unfold escapes. by rewrite Hraise, Hclass. }
  destruct (run self picks text) as [result|escaped] eqn:Hrun.
  - pose proof (run_Ok_none_escapes _ _ _ _ Hrun name fn Hin). congruence.
  - destruct (run_Raise_inv _ _ _ _ Hrun)
      as [[Hescaped (name' & fn' & Hin' & Hraise')]|(_ & Hnone & _)].
    + by exists escaped, name', fn'.
    + pose proof (Hnone name fn Hin). congruence.
Qed.

(** A task that ends without writing to the registry leaves its job in
    [processing] for good. *)
Lemma silent_task_strands_job s s' id earlier later j :
  fresh_reachable s ->
  background_tasks s = (earlier ++ id :: later)%list ->
  jobs_store s !! id = Some j ->
  rtc fresh_step (mkServer (jobs_store s) (earlier ++ later)%list) s' ->
  orderly (mkServer (jobs_store s) (earlier ++ later)%list) ->
  status j = processing /\
  jobs_store s' !! id = Some j /\
  (id ∉ background_tasks s') /\
  forall later_on,
    analyze_document id later_on s'
    = (HTTPException 409 "Analysis already in progress.", s').
Proof.
  intros Hs Htasks Hj Hsteps Hmid.
  pose proof (fresh_reachable_orderly s Hs) as Horderly.
  destruct (proj2 (proj1 Horderly) id) as (j0 & Hj0 & Hprocessing).
  { rewrite Htasks. apply elem_of_app. right. apply list_elem_of_here. }
  rewrite Hj in Hj0. injection Hj0 as <-.
  split; [done|].
  set (mid := mkServer (jobs_store s) (earlier ++ later)) in *.
  assert (Hgone : id ∉ background_tasks mid).
  { simpl. destruct Horderly as [[Hnodup _] _]. rewrite Htasks in Hnodup.
    apply NoDup_app in Hnodup as (H1 & H2 & H3).
    apply NoDup_cons in H3 as [H3 _]. intros Hin.
    apply elem_of_app in Hin as [Hin|Hin]; [|done].
    apply (H2 id Hin). apply list_elem_of_here. }
  destruct (fresh_steps_settled mid s' id j Hmid Hsteps Hj Hgone) as [Hj' Hnot'];
    [auto|].
  split; [done|]. split; [done|].
  intros later_on. by eapply analyze_document_processing.
Qed.

(** X21. When an agent raises outside [Exception] (a cancellation, a
    keyboard interrupt, a system exit) while the task of a job runs,
    nothing catches it: the run of the orchestrator raises what one of
    the agents raised outside [Exception], the job runner lets it
    propagate after extraction and the call of the orchestrator, and the
    record is not written. The job is left in [processing] with no task
    scheduled, and, as long as identifiers are not reused, it stays so
    for good: its record never changes again and every attempt to trigger
    analysis is answered with 409. *)
Theorem agent_escape_strands_job (s s' : server)
    (fs : filesystem) (orchestrator : AnalysisOrchestrator) (picks : list nat)
    (now : Z) (id : string) (earlier later : list string) (j : job)
    (text : string) (name : string) (fn : AgentCallable) (exc : exception) :
  fresh_reachable s ->
  background_tasks s = (earlier ++ id :: later)%list ->
  jobs_store s !! id = Some j ->
  extract_text fs (filepath j) = Ok text ->
  (name, fn) ∈ configured_agents orchestrator ->
  awaited (fn text) = Raise exc ->
  is_Exception exc = false ->
  let ran := _process_job fs orchestrator picks now id (jobs_store s) in
  rtc fresh_step (mkServer (fst ran) (earlier ++ later)%list) s' ->
  (exists escaped name' fn',
     is_Exception escaped = false /\
     (name', fn') ∈ configured_agents orchestrator /\
     awaited (fn' text) = Raise escaped /\
     run orchestrator picks text = Raise escaped /\
     ran = (jobs_store s,
            [ CalledExtractText (filepath j);
              CalledOrchestratorRun text;
              Propagated escaped ])) /\
  status j = processing /\
  jobs_store s' !! id = Some j /\
  (id ∉ background_tasks s') /\
  forall later_on,
    analyze_document id later_on s'
    = (HTTPException 409 "Analysis already in progress.", s').
Proof.
  intros Hs Htasks Hj Htext Hin Hraise Hclass ran Hsteps. subst ran.
  destruct (run_escapes orchestrator picks text name fn exc Hin Hraise Hclass)
    as (escaped & name' & fn' & Hrun & Hescaped & Hin' & Hraise').
  assert (Hran : _process_job fs orchestrator picks now id (jobs_store s)
                 = (jobs_store s,
                    [ CalledExtractText (filepath j);
                      CalledOrchestratorRun text;
                      Propagated escaped ])).
  { unfold _process_job. by rewrite Hj, Htext, Hrun, Hescaped. }
  assert (Hmid : orderly (mkServer (jobs_store s) (earlier ++ later)%list)).
  { pose proof (fresh_step_orderly s
                  (mkServer (fst (_process_job fs orchestrator picks now id
                                    (jobs_store s))) (earlier ++ later))
                  (fresh_launch_analysis fs orchestrator picks now id earlier later
                     s Htasks) (fresh_reachable_orderly s Hs)) as [Hm _].
    by rewrite Hran in Hm. }
  rewrite Hran in Hsteps. simpl in Hsteps.
  split.
  - exists escaped, name', fn'. by rewrite Hran.
  - by eapply silent_task_strands_job.
Qed.

Lemma agent_escape_strands_job_witness :
  exists j,
    jobs_store (mkServer
                  (fst (_process_job disk cancelled_orchestrator [] 2000 "job1"
                          (jobs_store server_job1_processing)))
                  []) !! "job1" = Some j /\
    status j = processing /\
    analyze_document "job1" 9000
      (mkServer
         (fst (_process_job disk cancelled_orchestrator [] 2000 "job1"
                 (jobs_store server_job1_processing)))
         [])
    = (HTTPException 409 "Analysis already in progress.",
       mkServer
         (fst (_process_job disk cancelled_orchestrator [] 2000 "job1"
                 (jobs_store server_job1_processing)))
         []).
Proof.
  destruct (jobs_store server_job1_processing !! "job1") as [j|] eqn:Hj;
    [|discriminate Hj].
  destruct (agent_escape_strands_job server_job1_processing
              (mkServer
                 (fst (_process_job disk cancelled_orchestrator [] 2000 "job1"
                         (jobs_store server_job1_processing)))
                 [])
              disk cancelled_orchestrator [] 2000 "job1" [] [] j
              "Acme Corp reported record growth."
              "summary" (_summarizer cancelled_orchestrator)
              (mkException CancelledError EmptyString)
              server_job1_processing_fresh eq_refl Hj)
    as (_ & Hstatus & Hj' & _ & Hconflict).
  - vm_compute in Hj. by injection Hj as <-.
  - apply list_elem_of_here.
  - reflexivity.
  - reflexivity.
  - apply rtc_refl.
  - exists j. split; [exact Hj'|]. split; [exact Hstatus|]. apply Hconflict.
Defined.
